(** * ship-parse-flow: the document-extraction pipeline

    A shallow embedding of the [extract-shipment-data] edge function
    (the [serve] handler), of the part of the [FileUpload] component
    that calls it ([uploadFile], [extractDataFromFile],
    [handleFileUpload], [handleEmailExtraction]) and of the search
    filter and the edit dialog of the [ShipmentTable] component,
    together with the properties of the flow.

    The record store (tables [parsing_logs] and [shipment_orders]), the
    file store (bucket [shipment-files]), the chat-completion endpoint
    and the relay that invokes the edge function are collaborators of
    the program.  They are modelled by a [world] (the two tables, the
    bucket, and the list of calls issued so far) and an [env] that
    decides how each collaborator and each built-in of the runtime
    ([JSON.parse], [String.prototype.trim], [Date.now]) answers.  A
    call to a collaborator either fails and leaves it as it was, or
    takes effect and is answered; an answer that gets lost after the
    call took effect is not modelled. *)

From Stdlib Require Import QArith Ascii String.
From stdpp Require Import gmap strings pretty list.

Local Open Scope string_scope.

(** ** JavaScript values *)

(** A JavaScript number as far as the handler looks at it: a finite
    value or an infinity ([JSON.parse] never yields NaN). *)
Inductive number :=
| Finite (q : Q)
| Infinity (negative : bool).

(** The values [JSON.parse] can return, and [undefined], which a property
    read returns for a member that is not there.  The members of an object
    are listed in the order of the JSON text. *)
#[warnings="-register-all"]
Inductive value :=
| VUndefined
| VNull
| VBool (b : bool)
| VNum (n : number)
| VStr (s : string)
| VArr (items : list value)
| VObj (members : list (string * value)).

(** What a [throw] carries.  [PostgrestError] is the [error] object of a
    record-store response; [Error] is [new Error(message)]; [TypeError]
    and [SyntaxError] are raised by the runtime. *)
Inductive exn :=
| PostgrestError (msg : string)
| Error (msg : string)
| TypeError (msg : string)
| SyntaxError (msg : string).

(** [error.message] *)
Definition message (e : exn) : string :=
  match e with
  | PostgrestError m | Error m | TypeError m | SyntaxError m => m
  end.

Inductive Result (A : Type) :=
| Ok (a : A)
| Throw (e : exn).
Arguments Ok {A} a.
Arguments Throw {A} e.

(** ToBoolean: the falsy values are [undefined], [null], [false], zero
    and the empty string. *)
Definition ToBoolean (v : value) : bool :=
  match v with
  | VUndefined | VNull => false
  | VBool b => b
  | VNum (Finite q) => negb (Qeq_bool q 0)
  | VNum (Infinity _) => true
  | VStr s => negb (String.eqb s "")
  | VArr _ | VObj _ => true
  end.

(** [a || b] *)
Definition js_or (a b : value) : value :=
  if ToBoolean a then a else b.

(** What arrives when a value is sent as JSON ([JSON.stringify], then
    read back): a number that overflowed to an infinity becomes [null],
    as does [undefined] inside an array; a member whose value is
    [undefined] is dropped. *)
Fixpoint as_json (v : value) : value :=
  match v with
  | VUndefined => VNull
  | VNull => VNull
  | VBool b => VBool b
  | VNum (Finite q) => VNum (Finite q)
  | VNum (Infinity _) => VNull
  | VStr s => VStr s
  | VArr items => VArr (List.map as_json items)
  | VObj members =>
      VObj ((fix members_json (ms : list (string * value)) :=
               match ms with
               | [] => []
               | (k, x) :: ms' =>
                   match x with
                   | VUndefined => members_json ms'
                   | _ => (k, as_json x) :: members_json ms'
                   end
               end) members)
  end.

(** The member named [k] of an object; when the JSON text repeats a
    name, the last occurrence is the one the object holds. *)
Fixpoint own_property (ms : list (string * value)) (k : string) : value :=
  match ms with
  | [] => VUndefined
  | (k', v) :: ms' =>
      match own_property ms' k with
      | VUndefined => if String.eqb k' k then v else VUndefined
      | later => later
      end
  end.

(** [v.k]: reading a property of [null] or [undefined] throws; arrays and
    primitives have no property of the names the handler reads. *)
Definition Get (v : value) (k : string) : Result value :=
  match v with
  | VUndefined =>
      Throw (TypeError ("Cannot read properties of undefined (reading '" +:+ k +:+ "')"))
  | VNull =>
      Throw (TypeError ("Cannot read properties of null (reading '" +:+ k +:+ "')"))
  | VObj ms => Ok (own_property ms k)
  | VBool _ | VNum _ | VStr _ | VArr _ => Ok VUndefined
  end.

(** ** The record store, the file store and the calls issued *)

(** parsing_logs.status: 'success', 'failed', 'processing' *)
Inductive log_status := processing | success | failed.

Global Instance log_status_eq_dec : EqDecision log_status.
Proof. solve_decision. Defined.

(** A row of [parsing_logs] (an ExtractionAttempt).  Row identifiers
    (uuid in the schema) are natural numbers; [created_at] and
    [processed_by] are left out, the handler never reads or writes them. *)
Record parsing_log := mk_parsing_log {
  log_id : nat;
  file_name : string;
  file_url : option string;
  status : log_status;
  error_message : option string;
  extracted_data : option value
}.

(** The object given to [.from('parsing_logs').insert(...)]. *)
Record parsing_log_insert := mk_parsing_log_insert {
  ins_file_name : string;
  ins_file_url : option string;
  ins_status : log_status
}.

(** The object given to [.from('parsing_logs').update(...)]; the update
    on success carries no [error_message]. *)
Record parsing_log_update := mk_parsing_log_update {
  upd_status : log_status;
  upd_error_message : option string;
  upd_extracted_data : value
}.

(** The object given to [.from('shipment_orders').insert(...)]. *)
Record shipment_order_insert := mk_shipment_order_insert {
  customer_name : value;
  address : value;
  tracking_id : value;
  delivery_date : value;
  package_weight : value;
  notes : value;
  original_file_url : option string;
  original_file_name : string;
  parsed_by_ai : bool;
  order_status : string
}.

(** A row of [shipment_orders] (a ShipmentRecord) as the store returns
    it: the columns of the insert as the store typed them, with the
    identifier it gave.  The columns the store fills by itself
    ([created_at], [updated_at], [created_by]) are left out: nothing
    below speaks of them. *)
Record shipment_order := mk_shipment_order {
  order_id : nat;
  order_columns : shipment_order_insert
}.

(** The body of the chat-completion request. *)
Record chat_request := mk_chat_request {
  model : string;
  system_content : string;
  user_content : string;
  temperature : Q;
  max_tokens : N
}.

(** The JSON body the edge function receives. *)
Record request_body := mk_request_body {
  fileContent : string;
  fileName : string;
  fileUrl : option string
}.

(** The [description] of a toast: a fixed or computed text, or the
    template [Extracted shipment data for ${customer_name}]. *)
Inductive description :=
| Text (s : string)
| ExtractedShipmentDataFor (customer_name : value).

(** Every call the program issues to a collaborator, in order. *)
Inductive event :=
| InsertParsingLog (row : parsing_log_insert)
| UpdateParsingLog (id : nat) (upd : parsing_log_update)
| InsertShipmentOrder (row : shipment_order_insert)
| Fetch (req : chat_request)
| StorageUpload (path : string)
| FunctionsInvoke (name : string) (body : request_body)
| Toast (title : string) (descr : description).

Record world := mk_world {
  parsing_logs : gmap nat parsing_log;
  shipment_orders : gmap nat shipment_order;
  shipment_files : gmap string string;
  calls : list event
}.

(** What [fetch] gives back: it rejects, or it resolves to a response
    with a status and a body.  The body either cannot be read as a
    completion ([response.json()] rejects, or
    [aiResponse.choices[0].message.content] throws), or it yields the
    text of the first choice. *)
Inductive completion_body :=
| BodyUnreadable (e : exn)
| BodyContent (content : string).

Inductive fetch_outcome :=
| FetchRejected (e : exn)
| FetchResponse (http_status : N) (body : completion_body).

(** How the collaborators and the runtime answer.

    [JSON_parse] and [String_trim] are the built-ins of the runtime.
    The record store answers an insert or an update with an error
    message or accepts it ([shipment_orders_rejection] is asked about
    the JSON row, and only for a row that has its NOT NULL columns).
    The store types what it accepts by the columns of the schema:
    [column_text] is the text it keeps for a value that is neither null
    nor a string (a number, a boolean, an array, an object: first
    character and rest, the text is never empty), [column_date] the
    date for a [date] column, [column_decimal] the number for a
    [decimal(10,2)] column.  [functions_invoke_error] is the error of an
    invocation that fails before the edge function runs. *)
Record env := mk_env {
  JSON_parse : string -> option value;
  String_trim : string -> string;
  Date_now : N;
  parsing_logs_insert_error : parsing_log_insert -> option string;
  parsing_logs_update_error : nat -> parsing_log_update -> option string;
  shipment_orders_rejection : shipment_order_insert -> option string;
  column_text : value -> ascii * string;
  column_date : value -> string;
  column_decimal : value -> Q;
  storage_upload_error : string -> option string;
  storage_public_url : string -> string;
  functions_invoke_error : request_body -> option string;
  openai : chat_request -> fetch_outcome
}.

(** ** Computations: state passing with exceptions *)

Definition M (A : Type) : Type := world -> Result A * world.

Global Instance M_ret : MRet M := fun A a w => (Ok a, w).

Global Instance M_bind : MBind M := fun A B f m w =>
  match m w with
  | (Ok a, w') => f a w'
  | (Throw e, w') => (Throw e, w')
  end.

Definition throw {A : Type} (e : exn) : M A := fun w => (Throw e, w).

(** [try { m } catch (e) { h e }] *)
Definition try_catch {A : Type} (m : M A) (h : exn -> M A) : M A := fun w =>
  match m w with
  | (Ok a, w') => (Ok a, w')
  | (Throw e, w') => h e w'
  end.

Definition lift {A : Type} (r : Result A) : M A := fun w => (r, w).

(** A step of a collaborator that cannot throw. *)
Definition state {A : Type} (f : world -> A * world) : M A := fun w =>
  (Ok (f w).1, (f w).2).

Definition record_call (ev : event) : M unit := fun w =>
  (Ok tt, mk_world (parsing_logs w) (shipment_orders w) (shipment_files w)
                   (calls w ++ [ev])).

(** The answer [{ data, error }] of a record-store or file-store call. *)
Inductive Response (A : Type) :=
| Data (data : A)
| Failed (error : exn).
Arguments Data {A} data.
Arguments Failed {A} error.

(** ** The supabase client *)

Definition set_parsing_logs (t : gmap nat parsing_log) (w : world) : world :=
  mk_world t (shipment_orders w) (shipment_files w) (calls w).

Definition set_shipment_orders (t : gmap nat shipment_order) (w : world) : world :=
  mk_world (parsing_logs w) t (shipment_files w) (calls w).

Definition set_shipment_files (t : gmap string string) (w : world) : world :=
  mk_world (parsing_logs w) (shipment_orders w) t (calls w).

(** The row after an update the store applied; [extracted_data] arrives
    as JSON.  (A [jsonb] column keeps an object up to the order of its
    members; the row here keeps them in the order sent.) *)
Definition apply_update (u : parsing_log_update) (l : parsing_log) : parsing_log :=
  mk_parsing_log (log_id l) (file_name l) (file_url l)
    (upd_status u)
    (match upd_error_message u with
     | Some m => Some m
     | None => error_message l
     end)
    (Some (as_json (upd_extracted_data u))).

(** The row of an insert into [shipment_orders] as it arrives: the six
    columns taken from the payload are sent as JSON. *)
Definition json_row (row : shipment_order_insert) : shipment_order_insert :=
  mk_shipment_order_insert
    (as_json (customer_name row)) (as_json (address row))
    (as_json (tracking_id row)) (as_json (delivery_date row))
    (as_json (package_weight row)) (as_json (notes row))
    (original_file_url row) (original_file_name row)
    (parsed_by_ai row) (order_status row).

Definition double_quote : string := String (ascii_of_N 34) EmptyString.

(** The error of the store for a null in a NOT NULL column. *)
Definition not_null_message (column : string) : string :=
  "null value in column " +:+ double_quote +:+ column +:+ double_quote
  +:+ " of relation " +:+ double_quote +:+ "shipment_orders" +:+ double_quote
  +:+ " violates not-null constraint".

(** [customer_name text NOT NULL, address text NOT NULL] *)
Definition not_null_violation (row : shipment_order_insert) : option string :=
  match customer_name row, address row with
  | VNull, _ => Some (not_null_message "customer_name")
  | _, VNull => Some (not_null_message "address")
  | _, _ => None
  end.

Section Collaborators.
Context (E : env).

(** Whether the store rejects the insert of [row] into
    [shipment_orders], and with what message: for a null in a NOT NULL
    column, or for a reason of its own. *)
Definition shipment_orders_insert_error (row : shipment_order_insert)
  : option string :=
  match not_null_violation (json_row row) with
  | Some m => Some m
  | None => shipment_orders_rejection E (json_row row)
  end.

(** A [text] column: null stays null, a string is kept, any other value
    is kept as its text. *)
Definition text_column (v : value) : value :=
  match v with
  | VNull => VNull
  | VStr s => VStr s
  | _ => VStr (String (column_text E v).1 (column_text E v).2)
  end.

(** A [date] column. *)
Definition date_column (v : value) : value :=
  match v with
  | VNull => VNull
  | _ => VStr (column_date E v)
  end.

(** A [decimal(10,2)] column. *)
Definition decimal_column (v : value) : value :=
  match v with
  | VNull => VNull
  | _ => VNum (Finite (column_decimal E v))
  end.

(** The row the store keeps for an accepted JSON row. *)
Definition typed_row (row : shipment_order_insert) : shipment_order_insert :=
  mk_shipment_order_insert
    (text_column (customer_name row)) (text_column (address row))
    (text_column (tracking_id row)) (date_column (delivery_date row))
    (decimal_column (package_weight row)) (text_column (notes row))
    (original_file_url row) (original_file_name row)
    (parsed_by_ai row) (order_status row).

(** [supabase.from('parsing_logs').insert(row).select().single()]:
    the store rejects the row and nothing is written, or it writes
    the row under a new identifier and returns it. *)
Definition parsing_logs_insert (row : parsing_log_insert)
  : M (Response parsing_log) :=
  record_call (InsertParsingLog row);;
  state (fun w =>
    match parsing_logs_insert_error E row with
    | Some m => (Failed (PostgrestError m), w)
    | None =>
        let id := fresh (dom (parsing_logs w)) in
        let l := mk_parsing_log id (ins_file_name row) (ins_file_url row)
                   (ins_status row) None None in
        (Data l, set_parsing_logs (<[id := l]> (parsing_logs w)) w)
    end).

(** [supabase.from('parsing_logs').update(u).eq('id', id)]: the store
    rejects the update and nothing is written, or the rows whose
    identifier is [id] take the columns of [u].  The handler never looks
    at the answer, so none is returned. *)
Definition parsing_logs_update (u : parsing_log_update) (id : nat) : M unit :=
  record_call (UpdateParsingLog id u);;
  state (fun w =>
    match parsing_logs_update_error E id u with
    | Some _ => (tt, w)
    | None =>
        (tt, set_parsing_logs (alter (apply_update u) id (parsing_logs w)) w)
    end).

(** [supabase.from('shipment_orders').insert(row).select().single()]:
    the row is sent as JSON; the store rejects it and nothing is
    written, or it writes the row, typed by its columns, under a new
    identifier and returns what it wrote. *)
Definition shipment_orders_insert (row : shipment_order_insert)
  : M (Response shipment_order) :=
  record_call (InsertShipmentOrder row);;
  state (fun w =>
    match shipment_orders_insert_error row with
    | Some m => (Failed (PostgrestError m), w)
    | None =>
        let id := fresh (dom (shipment_orders w)) in
        let o := mk_shipment_order id (typed_row (json_row row)) in
        (Data o, set_shipment_orders (<[id := o]> (shipment_orders w)) w)
    end).

(** [fetch('https://api.openai.com/v1/chat/completions', ...)] *)
Definition fetch (req : chat_request) : M (N * completion_body) :=
  record_call (Fetch req);;
  match openai E req with
  | FetchRejected e => throw e
  | FetchResponse st b => mret (st, b)
  end.

(** [response.ok]: the status is in the range 200-299. *)
Definition response_ok (st : N) : bool :=
  ((200 <=? st) && (st <=? 299))%N.

(** [(await response.json()).choices[0].message.content] *)
Definition completion_content (b : completion_body) : M string :=
  match b with
  | BodyUnreadable e => throw e
  | BodyContent text => mret text
  end.

(** [JSON.parse(text)] *)
Definition parse_json (text : string) : M value :=
  match JSON_parse E text with
  | Some v => mret v
  | None => throw (SyntaxError "Unexpected token in JSON")
  end.
End Collaborators.

(** ** The edge function [extract-shipment-data] *)

Global Instance Result_ret : MRet Result := fun A a => Ok a.

Global Instance Result_bind : MBind Result := fun A B f r =>
  match r with
  | Ok a => f a
  | Throw e => Throw e
  end.

Definition corsHeaders : list (string * string) :=
  [("Access-Control-Allow-Origin", "*");
   ("Access-Control-Allow-Headers",
    "authorization, x-client-info, apikey, content-type")].

Definition extractionPrompt (fileContent : string) : string :=
  "
Extract shipment order information from the following document content. 
Return a JSON object with these exact fields:
- customer_name: string (required)
- address: string (required) 
- tracking_id: string (optional)
- delivery_date: string in YYYY-MM-DD format (optional)
- package_weight: number (optional, in kg)
- notes: string (optional)

Document content:
" +:+ fileContent +:+ "

Return only valid JSON, no other text.".

Definition completion_request (fileContent : string) : chat_request :=
  mk_chat_request "gpt-4o-mini"
    "You are an expert data extraction assistant. Extract shipment information accurately and return only valid JSON."
    (extractionPrompt fileContent)
    (1 # 10)
    1000.

(** [!extractedData.customer_name || !extractedData.address] *)
Definition required_fields_missing (extractedData : value) : Result bool :=
  name ← Get extractedData "customer_name";
  if negb (ToBoolean name) then mret true
  else
    addr ← Get extractedData "address";
    mret (negb (ToBoolean addr)).

(** The object built for the insert into [shipment_orders]. *)
Definition shipment_row (extractedData : value) (b : request_body)
  : Result shipment_order_insert :=
  name ← Get extractedData "customer_name";
  addr ← Get extractedData "address";
  tracking ← Get extractedData "tracking_id";
  date ← Get extractedData "delivery_date";
  weight ← Get extractedData "package_weight";
  note ← Get extractedData "notes";
  mret (mk_shipment_order_insert name addr
          (js_or tracking VNull) (js_or date VNull)
          (js_or weight VNull) (js_or note VNull)
          (fileUrl b) (fileName b) true "pending").

Definition missing_fields_message : string :=
  "Missing required fields: customer_name and address".

(** The body of the handler's [try] block: what the specification calls
    [extract]. *)
Definition extract_shipment_data (E : env) (b : request_body)
  : M (shipment_order * value) :=
  logResult ← parsing_logs_insert E
    (mk_parsing_log_insert (fileName b) (fileUrl b) processing);
  match logResult with
  | Failed logError => throw logError
  | Data logData =>
      response ← fetch E (completion_request (fileContent b));
      if negb (response_ok response.1)
      then throw (Error ("OpenAI API error: " +:+ pretty response.1))
      else
        extractedText ← completion_content response.2;
        extractedData ← try_catch (parse_json E extractedText)
          (fun parseError =>
             parsing_logs_update E
               (mk_parsing_log_update failed
                  (Some "Failed to parse AI response as JSON")
                  (VObj [("raw_response", VStr extractedText)]))
               (log_id logData);;
             throw (Error "AI response was not valid JSON"));
        missing ← lift (required_fields_missing extractedData);
        if (missing : bool)
        then
          parsing_logs_update E
            (mk_parsing_log_update failed (Some missing_fields_message)
               extractedData)
            (log_id logData);;
          throw (Error missing_fields_message)
        else
          row ← lift (shipment_row extractedData b);
          shipmentResult ← shipment_orders_insert E row;
          match shipmentResult with
          | Failed shipmentError =>
              parsing_logs_update E
                (mk_parsing_log_update failed (Some (message shipmentError))
                   extractedData)
                (log_id logData);;
              throw shipmentError
          | Data shipmentData =>
              parsing_logs_update E
                (mk_parsing_log_update success None extractedData)
                (log_id logData);;
              mret (shipmentData, extractedData)
          end
  end.

(** The HTTP request as the handler reads it: the method, and what
    [const { fileContent, fileName, fileUrl } = await req.json()] gives:
    the three fields, or the error thrown when the body is not JSON or
    cannot be destructured (the body [null]). *)
Record http_request := mk_http_request {
  method : string;
  json : Result request_body
}.

(** The body of a response, a JSON text, as the object it denotes. *)
Inductive response_json :=
| SuccessBody (shipmentOrder : shipment_order) (extractedData : value)
| ErrorBody (error : string).

Record http_response := mk_http_response {
  resp_status : N;
  resp_headers : list (string * string);
  resp_body : option response_json
}.

Definition json_headers : list (string * string) :=
  corsHeaders ++ [("Content-Type", "application/json")].

(** The [catch] block of the handler. *)
Definition error_response (error : exn) : http_response :=
  mk_http_response 500 json_headers (Some (ErrorBody (message error))).

(** The handler given to [serve]; the body of the answer is
    [JSON.stringify] of the object the handler builds. *)
Definition serve (E : env) (req : http_request) (w : world)
  : http_response * world :=
  if String.eqb (method req) "OPTIONS"
  then (mk_http_response 200 corsHeaders None, w)
  else
    match (b ← lift (json req); extract_shipment_data E b) w with
    | (Ok (shipmentData, extractedData), w') =>
        (mk_http_response 200 json_headers
           (Some (SuccessBody shipmentData (as_json extractedData))), w')
    | (Throw error, w') => (error_response error, w')
    end.

(** ** The [FileUpload] component

    Of the component, the calls to the file store and to the edge
    function and the toasts are modelled; the React state ([uploading],
    [progress], [processingState], [emailContent]) and the timers that
    reset it are left out. *)

(** A [File]: its name, its bytes, and what reading it as text gives
    ([None] when the reader reports an error). *)
Record File := mk_File {
  name : string;
  bytes : string;
  text : option string
}.

(** [fileUrl || null] on an optional string. *)
Definition or_null (fileUrl : option string) : option string :=
  match fileUrl with
  | Some s => if String.eqb s "" then None else Some s
  | None => None
  end.

(** [a || b] on strings. *)
Definition or_string (a b : string) : string :=
  if String.eqb a "" then b else a.

(** [error instanceof Error ? error.message : fallback] *)
Definition message_or (error : exn) (fallback : string) : string :=
  match error with
  | PostgrestError _ => fallback
  | Error m | TypeError m | SyntaxError m => m
  end.

Section Client.
Context (E : env).

(** [supabase.storage.from('shipment-files').upload(filePath, file)] *)
Definition storage_upload (filePath : string) (file : File)
  : M (Response string) :=
  record_call (StorageUpload filePath);;
  state (fun w =>
    match storage_upload_error E filePath with
    | Some m => (Failed (Error m), w)
    | None =>
        (Data filePath,
         set_shipment_files (<[filePath := bytes file]> (shipment_files w)) w)
    end).

(** [supabase.functions.invoke(name, { body })]: the invocation fails
    before the edge function runs (a fetch or relay error) and that
    error comes back; or the edge function runs on the request, and a
    status outside 200-299 comes back as [error], any other answer as
    [data]. *)
Definition functions_invoke (fname : string) (body : request_body)
  : M (Response (option response_json)) :=
  record_call (FunctionsInvoke fname body);;
  match functions_invoke_error E body with
  | Some m => mret (Failed (Error m))
  | None =>
      state (fun w =>
        let r := serve E (mk_http_request "POST" (Ok body)) w in
        if response_ok (resp_status r.1)
        then (Data (resp_body r.1), r.2)
        else
          (Failed (Error "Edge Function returned a non-2xx status code"), r.2))
  end.

Definition uploadFile (file : File) : M (string * string * string) :=
  let fileName := pretty (Date_now E) +:+ "-" +:+ name file in
  let filePath := fileName in
  r ← storage_upload filePath file;
  match r with
  | Failed error => throw error
  | Data path => mret (path, storage_public_url E filePath, name file)
  end.

Definition extractDataFromFile (fileContent fileName : string)
    (fileUrl : option string) : M (option response_json) :=
  r ← functions_invoke "extract-shipment-data"
        (mk_request_body fileContent fileName (or_null fileUrl));
  match r with
  | Failed error => throw error
  | Data data => mret data
  end.

(** What both handlers do with the result of [extractDataFromFile]:
    [if (!result.success) throw new Error(result.error || ...)], then
    the success toast. *)
Definition report_result (result : option response_json) : M unit :=
  match result with
  | None =>
      throw (TypeError "Cannot read properties of null (reading 'success')")
  | Some (ErrorBody error) =>
      throw (Error (or_string error "Failed to extract data"))
  | Some (SuccessBody _ extractedData) =>
      customer ← lift (Get extractedData "customer_name");
      record_call (Toast "Success!" (ExtractedShipmentDataFor customer))
  end.

(** [readFileContent(file)]: [resolve(content || '')], or
    [reject(new Error('Failed to read file'))]. *)
Definition readFileContent (file : File) : M string :=
  match text file with
  | Some content => mret content
  | None => throw (Error "Failed to read file")
  end.

Definition handleFileUpload (file : File) : M unit :=
  try_catch
    (uploaded ← uploadFile file;
     fileContent ← readFileContent file;
     result ← extractDataFromFile fileContent uploaded.2 (Some uploaded.1.2);
     report_result result)
    (fun error =>
       record_call
         (Toast "Upload Failed" (Text (message_or error "Failed to process file")))).

Definition handleEmailExtraction (emailContent : string) : M unit :=
  if String.eqb (String_trim E emailContent) ""
  then record_call (Toast "Error" (Text "Please enter email content"))
  else
    try_catch
      (let fileName := "email-" +:+ pretty (Date_now E) +:+ ".txt" in
       result ← extractDataFromFile emailContent fileName None;
       report_result result)
      (fun error =>
         record_call
           (Toast "Processing Failed"
              (Text (message_or error "Failed to process email content")))).
End Client.

(** ** Notions used to state the properties *)

(** The identifier the store gives to the next row of [parsing_logs]. *)
Definition attempt_id (w : world) : nat := fresh (dom (parsing_logs w)).

(** The identifier the store gives to the next row of [shipment_orders]. *)
Definition shipment_id (w : world) : nat := fresh (dom (shipment_orders w)).

(** The object the handler inserts into [parsing_logs] at its start. *)
Definition attempt_row (b : request_body) : parsing_log_insert :=
  mk_parsing_log_insert (fileName b) (fileUrl b) processing.

(** The attempt as the store holds it right after that insert. *)
Definition new_attempt (b : request_body) (w : world) : parsing_log :=
  mk_parsing_log (attempt_id w) (fileName b) (fileUrl b) processing None None.

(** The attempt once it was updated with [u]. *)
Definition resolved_attempt (b : request_body) (w : world)
    (u : parsing_log_update) : parsing_log :=
  apply_update u (new_attempt b w).

(** A world built from [w]: new tables, and further calls issued. *)
Definition evolve (w : world) (logs : gmap nat parsing_log)
    (orders : gmap nat shipment_order) (evs : list event) : world :=
  mk_world logs orders (shipment_files w) (calls w ++ evs).

Definition is_update_of (id : nat) (ev : event) : bool :=
  match ev with
  | UpdateParsingLog i _ => Nat.eqb i id
  | _ => false
  end.

Definition is_fetch (ev : event) : bool :=
  match ev with
  | Fetch _ => true
  | _ => false
  end.

Definition is_shipment_insert (ev : event) : bool :=
  match ev with
  | InsertShipmentOrder _ => true
  | _ => false
  end.

Definition is_storage_upload (ev : event) : bool :=
  match ev with
  | StorageUpload _ => true
  | _ => false
  end.

(** How many of the calls [evs] satisfy [p]. *)
Definition count (p : event -> bool) (evs : list event) : nat :=
  length (List.filter p evs).

(** The calls issued between [w] and [w']. *)
Definition calls_since (w w' : world) : list event :=
  drop (length (calls w)) (calls w').

Definition terminal (s : log_status) : bool :=
  match s with
  | processing => false
  | success | failed => true
  end.

(** The handler created the attempt: the store accepted the first insert. *)
Definition attempt_created (E : env) (b : request_body) : Prop :=
  parsing_logs_insert_error E (attempt_row b) = None.

(** The extraction call answered with a success status and the text
    [extractedText] as the content of its first choice. *)
Definition upstream_yields (E : env) (b : request_body)
    (extractedText : string) : Prop :=
  exists st,
    openai E (completion_request (fileContent b))
      = FetchResponse st (BodyContent extractedText)
    /\ response_ok st = true.

(** The payload has a member [k] with a truthy value (for a string: a
    non-empty one). *)
Definition provides (p : value) (k : string) : Prop :=
  exists v, Get p k = Ok v /\ ToBoolean v = true.

(** Reading [k] from the payload gives a falsy value: the member is
    missing ([undefined]), or it is the empty string, zero, [false] or
    [null]. *)
Definition lacks (p : value) (k : string) : Prop :=
  exists v, Get p k = Ok v /\ ToBoolean v = false.

(** A column written as [extractedData.k || null]: the payload's value
    when that is truthy, [null] otherwise. *)
Definition defaulted (p : value) (k : string) (column : value) : Prop :=
  exists v, Get p k = Ok v /\ column = (if ToBoolean v then v else VNull).

(** The specification's wording for an optional column: the payload's
    value, [null] when the payload has no such member. *)
Definition null_when_absent (p : value) (k : string) (column : value) : Prop :=
  exists v, Get p k = Ok v /\
    column = (match v with VUndefined => VNull | _ => v end).

(** The specification's wording for the whole record: every column
    equals the payload's field, optional ones null when absent. *)
Definition copies_payload (p : value) (row : shipment_order_insert) : Prop :=
  Get p "customer_name" = Ok (customer_name row) /\
  Get p "address" = Ok (address row) /\
  null_when_absent p "tracking_id" (tracking_id row) /\
  null_when_absent p "delivery_date" (delivery_date row) /\
  null_when_absent p "package_weight" (package_weight row) /\
  null_when_absent p "notes" (notes row).

(** The attempt after the update [u] was issued: updated if the store
    applied it, as it was if the store rejected it. *)
Definition attempt_after (E : env) (b : request_body) (w : world)
    (u : parsing_log_update) : parsing_log :=
  match parsing_logs_update_error E (attempt_id w) u with
  | None => resolved_attempt b w u
  | Some _ => new_attempt b w
  end.

(** The store applies the update [u] of the attempt created in [w]. *)
Definition update_applied (E : env) (w : world) (u : parsing_log_update)
  : Prop :=
  parsing_logs_update_error E (attempt_id w) u = None.

(** The store applies every update of [parsing_logs]. *)
Definition applies_updates (E : env) : Prop :=
  forall id u, parsing_logs_update_error E id u = None.

(** The ways the handler's [try] block ends, started in [w] on [b]:
    the result, and the world it leaves. *)
Inductive exit (E : env) (b : request_body) (w : world)
  : Result (shipment_order * value) * world -> Prop :=
| exit_no_attempt e :
    exit E b w
      (Throw e,
       evolve w (parsing_logs w) (shipment_orders w)
         [InsertParsingLog (attempt_row b)])
| exit_unresolved e :
    exit E b w
      (Throw e,
       evolve w (<[attempt_id w := new_attempt b w]> (parsing_logs w))
         (shipment_orders w)
         [InsertParsingLog (attempt_row b);
          Fetch (completion_request (fileContent b))])
| exit_rejected e m d :
    exit E b w
      (Throw e,
       evolve w
         (<[attempt_id w :=
              attempt_after E b w (mk_parsing_log_update failed (Some m) d)]>
            (parsing_logs w))
         (shipment_orders w)
         [InsertParsingLog (attempt_row b);
          Fetch (completion_request (fileContent b));
          UpdateParsingLog (attempt_id w)
            (mk_parsing_log_update failed (Some m) d)])
| exit_store_error m p row :
    required_fields_missing p = Ok false ->
    shipment_row p b = Ok row ->
    shipment_orders_insert_error E row = Some m ->
    exit E b w
      (Throw (PostgrestError m),
       evolve w
         (<[attempt_id w :=
              attempt_after E b w (mk_parsing_log_update failed (Some m) p)]>
            (parsing_logs w))
         (shipment_orders w)
         [InsertParsingLog (attempt_row b);
          Fetch (completion_request (fileContent b));
          InsertShipmentOrder row;
          UpdateParsingLog (attempt_id w)
            (mk_parsing_log_update failed (Some m) p)])
| exit_success p row :
    required_fields_missing p = Ok false ->
    shipment_row p b = Ok row ->
    shipment_orders_insert_error E row = None ->
    exit E b w
      (Ok (mk_shipment_order (shipment_id w) (typed_row E (json_row row)), p),
       evolve w
         (<[attempt_id w :=
              attempt_after E b w (mk_parsing_log_update success None p)]>
            (parsing_logs w))
         (<[shipment_id w :=
              mk_shipment_order (shipment_id w) (typed_row E (json_row row))]>
            (shipment_orders w))
         [InsertParsingLog (attempt_row b);
          Fetch (completion_request (fileContent b));
          InsertShipmentOrder row;
          UpdateParsingLog (attempt_id w)
            (mk_parsing_log_update success None p)]).

Definition empty_world : world := mk_world ∅ ∅ ∅ [].

(** The worlds the edge function can produce, from empty tables, by
    serving requests under any behaviour of the collaborators. *)
Inductive reachable : world -> Prop :=
| reachable_empty : reachable empty_world
| reachable_serve E req w :
    reachable w -> reachable (serve E req w).2.

(** An attempt that ended in [success] with a payload that passed the
    validation of the required fields. *)
Definition succeeded (l : parsing_log) : Prop :=
  status l = success /\
  exists p, extracted_data l = Some p /\ required_fields_missing p = Ok false.

Definition is_invoke (ev : event) : bool :=
  match ev with
  | FunctionsInvoke _ _ => true
  | _ => false
  end.

(** The file name [handleEmailExtraction] makes up from the clock. *)
Definition email_file_name (E : env) : string :=
  "email-" +:+ pretty (Date_now E) +:+ ".txt".

(** What the specification says of a pasted text: nothing is written to
    the file store, and the edge function is invoked, once, with the
    text, the made-up file name and no file reference, so that the
    attempt it creates carries that name and no reference. *)
Definition email_is_submitted (E : env) (emailContent : string) (w : world)
  : Prop :=
  let r := handleEmailExtraction E emailContent w in
  count is_storage_upload (calls_since w r.2) = 0 /\
  shipment_files r.2 = shipment_files w /\
  (exists evs,
     calls_since w r.2 =
       FunctionsInvoke "extract-shipment-data"
         (mk_request_body emailContent (email_file_name E) None) :: evs /\
     count is_invoke evs = 0) /\
  (forall l, parsing_logs r.2 !! attempt_id w = Some l ->
             file_name l = email_file_name E /\ file_url l = None).

(** The attempts of a table that ended in [success]. *)
Definition successes (logs : gmap nat parsing_log) : gmap nat parsing_log :=
  filter (fun kv => status kv.2 = success) logs.

(** There are as many shipment orders as attempts that ended in
    [success], and each of those attempts holds a validated payload. *)
Definition consistent (w : world) : Prop :=
  size (shipment_orders w) = size (successes (parsing_logs w)) /\
  forall a l, parsing_logs w !! a = Some l -> status l = success -> succeeded l.

(** Every attempt that ended in [success] holds a validated payload,
    and there are at least as many shipment orders as such attempts. *)
Definition sound (w : world) : Prop :=
  size (successes (parsing_logs w)) <= size (shipment_orders w) /\
  forall a l, parsing_logs w !! a = Some l -> status l = success -> succeeded l.

(** ** Concrete runs *)

Module Scenario.
Definition quoted (s : string) : string :=
  String (ascii_of_N 34) s +:+ String (ascii_of_N 34) "".

(** The upstream answers of the end-to-end scenarios, and further
    ones. *)
Definition text_A : string :=
  "{" +:+ quoted "customer_name" +:+ ":" +:+ quoted "Jane Doe" +:+ ","
      +:+ quoted "address" +:+ ":" +:+ quoted "12 Oak St" +:+ ","
      +:+ quoted "tracking_id" +:+ ":" +:+ quoted "XZ100" +:+ ","
      +:+ quoted "package_weight" +:+ ":2.5}".

Definition payload_A : value :=
  VObj [("customer_name", VStr "Jane Doe"); ("address", VStr "12 Oak St");
        ("tracking_id", VStr "XZ100");
        ("package_weight", VNum (Finite (5 # 2)))].

Definition text_B : string := "Sorry, I cannot process this.".

Definition text_C : string :=
  "{" +:+ quoted "address" +:+ ":" +:+ quoted "12 Oak St" +:+ "}".

Definition payload_C : value := VObj [("address", VStr "12 Oak St")].

Definition text_zero_weight : string :=
  "{" +:+ quoted "customer_name" +:+ ":" +:+ quoted "Jane Doe" +:+ ","
      +:+ quoted "address" +:+ ":" +:+ quoted "12 Oak St" +:+ ","
      +:+ quoted "tracking_id" +:+ ":" +:+ quoted "" +:+ ","
      +:+ quoted "package_weight" +:+ ":0}".

Definition payload_zero_weight : value :=
  VObj [("customer_name", VStr "Jane Doe"); ("address", VStr "12 Oak St");
        ("tracking_id", VStr ""); ("package_weight", VNum (Finite 0))].

Definition text_null : string := "null".

(** A weight beyond the range of a number: [JSON.parse] gives
    [Infinity] for it. *)
Definition text_overflow : string :=
  "{" +:+ quoted "customer_name" +:+ ":" +:+ quoted "Jane Doe" +:+ ","
      +:+ quoted "address" +:+ ":" +:+ quoted "12 Oak St" +:+ ","
      +:+ quoted "package_weight" +:+ ":1e999}".

Definition payload_overflow : value :=
  VObj [("customer_name", VStr "Jane Doe"); ("address", VStr "12 Oak St");
        ("package_weight", VNum (Infinity false))].

(** [JSON.parse] on the texts above; any other text is taken not to
    be JSON. *)
Definition parse (s : string) : option value :=
  if String.eqb s text_A then Some payload_A
  else if String.eqb s text_C then Some payload_C
  else if String.eqb s text_zero_weight then Some payload_zero_weight
  else if String.eqb s text_null then Some VNull
  else if String.eqb s text_overflow then Some payload_overflow
  else None.

(** [trim] on a text of ASCII characters: tab, line feed, vertical tab,
    form feed, carriage return and space are stripped at both ends. *)
Definition ascii_white_space (c : ascii) : bool :=
  let n := N_of_ascii c in
  (((9 <=? n) && (n <=? 13)) || (n =? 32))%N.

Fixpoint trim_start (s : string) : string :=
  match s with
  | EmptyString => EmptyString
  | String c s' => if ascii_white_space c then trim_start s' else s
  end.

Fixpoint trim_end (s : string) : string :=
  match s with
  | EmptyString => EmptyString
  | String c s' =>
      match trim_end s' with
      | EmptyString =>
          if ascii_white_space c then EmptyString else String c EmptyString
      | t => String c t
      end
  end.

Definition ascii_trim (s : string) : string := trim_end (trim_start s).

(** The typing of the record store in the runs below: a number with at
    most two decimals is kept in the decimal column, a date string in
    the date column; the text kept for a boolean is its name (no run
    sends another value that is not a string to a text column). *)
Definition kept_text (v : value) : ascii * string :=
  match v with
  | VBool false => ("f"%char, "alse")
  | _ => ("t"%char, "rue")
  end.

Definition kept_date (v : value) : string :=
  match v with
  | VStr s => s
  | _ => ""
  end.

Definition kept_decimal (v : value) : Q :=
  match v with
  | VNum (Finite q) => q
  | _ => 0
  end.

(** Collaborators that answer the same way to every call: the
    extraction call with status [st] and content [text], the record
    store with the given errors for the inserts, if any; updates are
    applied and invocations of the edge function reach it. *)
Definition answering (st : N) (text : string)
    (log_error shipment_error : option string) : env :=
  mk_env parse ascii_trim 1756693216000%N
    (fun _ => log_error) (fun _ _ => None) (fun _ => shipment_error)
    kept_text kept_date kept_decimal
    (fun _ => None)
    (fun path => "shipment-files/" +:+ path)
    (fun _ => None)
    (fun _ => FetchResponse st (BodyContent text)).

Definition body_A : request_body :=
  mk_request_body "Ship to Jane Doe, 12 Oak St, tracking XZ100, 2.5kg"
    "order.txt" None.
End Scenario.

(** ** Notions for the stored rows *)

(** A shipment order as the edge function writes it: truthy
    [customer_name] and [address], marked as parsed by AI, 'pending'. *)
Definition validated_order (o : shipment_order) : Prop :=
  ToBoolean (customer_name (order_columns o)) = true /\
  ToBoolean (address (order_columns o)) = true /\
  parsed_by_ai (order_columns o) = true /\
  order_status (order_columns o) = "pending".

(** The columns an attempt holds in each status. *)
Definition attempt_shape (l : parsing_log) : Prop :=
  match status l with
  | processing => error_message l = None /\ extracted_data l = None
  | failed => error_message l <> None /\ extracted_data l <> None
  | success => error_message l = None /\ succeeded l
  end.

Definition is_toast (ev : event) : bool :=
  match ev with
  | Toast _ _ => true
  | _ => false
  end.

(** The key under which [uploadFile] stores a file. *)
Definition upload_key (E : env) (file : File) : string :=
  pretty (Date_now E) +:+ "-" +:+ name file.

Definition stored_original_file_url (o : shipment_order) : option string :=
  original_file_url (order_columns o).
Definition stored_original_file_name (o : shipment_order) : string :=
  original_file_name (order_columns o).
Definition stored_parsed_by_ai (o : shipment_order) : bool :=
  parsed_by_ai (order_columns o).

(** ** The [ShipmentTable] component

    The search and status filter over the shipments shown, and the edit
    dialog that writes a shipment back.  The CSV export and the cells
    of the table format dates and numbers through the runtime and are
    left out, as is the React state.  An update of [shipment_orders]
    also sets [updated_at] (a trigger of the schema), a column the
    model of the row leaves out. *)

Module ShipmentTable.

(** [interface Shipment]: a row of [shipment_orders] as the component
    receives it. *)
Record Shipment := mk_Shipment {
  id : nat;
  customer_name : string;
  address : string;
  tracking_id : option string;
  delivery_date : option string;
  package_weight : option number;
  notes : option string;
  status : string;
  original_file_name : option string;
  parsed_by_ai : bool;
  created_at : string;
  updated_at : string
}.

Section Filter.

(** The lower-casing of the runtime ([String.prototype.toLowerCase],
    which follows Unicode and looks at the context of a letter). *)
Context (String_toLowerCase : string -> string).

(** [s.toLowerCase()]: the empty string has nothing to lower. *)
Definition toLowerCase (s : string) : string :=
  match s with
  | EmptyString => EmptyString
  | _ => String_toLowerCase s
  end.

(** [s.includes(t)]: [t] occurs in [s] at some position. *)
Fixpoint includes (s t : string) : bool :=
  String.prefix t s
  || match s with
     | EmptyString => false
     | String _ s' => includes s' t
     end.

(** [matchesSearch], as the filter reads it (its truthiness). *)
Definition matchesSearch (searchTerm : string) (shipment : Shipment) : bool :=
  includes (toLowerCase (customer_name shipment)) (toLowerCase searchTerm)
  || includes (toLowerCase (address shipment)) (toLowerCase searchTerm)
  || match tracking_id shipment with
     | Some t =>
         negb (String.eqb t "")
         && includes (toLowerCase t) (toLowerCase searchTerm)
     | None => false
     end.

Definition matchesStatus (statusFilter : string) (shipment : Shipment) : bool :=
  String.eqb statusFilter "all" || String.eqb (status shipment) statusFilter.

Definition filteredShipments (shipments : list Shipment)
    (searchTerm statusFilter : string) : list Shipment :=
  List.filter
    (fun shipment =>
       matchesSearch searchTerm shipment && matchesStatus statusFilter shipment)
    shipments.

End Filter.

(** Lower case on a text of ASCII characters: the letters A-Z move up
    by 32. *)
Definition ascii_to_lower (c : ascii) : ascii :=
  let n := N_of_ascii c in
  if ((65 <=? n) && (n <=? 90))%N then ascii_of_N (n + 32) else c.

Fixpoint ascii_toLowerCase (s : string) : string :=
  match s with
  | EmptyString => EmptyString
  | String c s' => String (ascii_to_lower c) (ascii_toLowerCase s')
  end.

(** The [editForm] of the dialog: the seven fields [handleEdit] copies. *)
Record EditForm := mk_EditForm {
  edit_customer_name : string;
  edit_address : string;
  edit_tracking_id : option string;
  edit_delivery_date : option string;
  edit_package_weight : option number;
  edit_notes : option string;
  edit_status : string
}.

(** [handleEdit(shipment)]: the shipment being edited and the form. *)
Definition handleEdit (shipment : Shipment) : option Shipment * EditForm :=
  (Some shipment,
   mk_EditForm (customer_name shipment) (address shipment)
     (tracking_id shipment) (delivery_date shipment)
     (package_weight shipment) (notes shipment) (status shipment)).

(** A nullable string and a nullable number as JSON values. *)
Definition of_string (s : option string) : value :=
  match s with
  | Some s => VStr s
  | None => VNull
  end.

Definition of_number (n : option number) : value :=
  match n with
  | Some n => VNum n
  | None => VNull
  end.

(** The row after [.update(editForm)]: the seven columns of the form
    replace the row's. *)
Definition updated (editForm : EditForm) (o : shipment_order) : shipment_order :=
  mk_shipment_order (order_id o)
    (mk_shipment_order_insert
       (VStr (edit_customer_name editForm))
       (VStr (edit_address editForm))
       (of_string (edit_tracking_id editForm))
       (of_string (edit_delivery_date editForm))
       (of_number (edit_package_weight editForm))
       (of_string (edit_notes editForm))
       (stored_original_file_url o)
       (stored_original_file_name o)
       (stored_parsed_by_ai o)
       (edit_status editForm)).

(** [supabase.from('shipment_orders').update(editForm).eq('id', id)]:
    the store rejects the update and nothing is written, or the row
    whose identifier is [id] takes the columns of the form.  ([calls]
    lists the calls of the extraction flow and has no entry for it.) *)
Definition shipment_orders_update (update_error : option string)
    (editForm : EditForm) (id : nat) : M (option exn) :=
  state (fun w =>
    match update_error with
    | Some m => (Some (PostgrestError m), w)
    | None =>
        (None,
         set_shipment_orders (alter (updated editForm) id (shipment_orders w)) w)
    end).

(** [handleSave], for the shipment being edited (if any) and the form;
    [update_error] is how the record store answers the update. *)
Definition handleSave (update_error : option string)
    (editingShipment : option Shipment) (editForm : EditForm) : M unit :=
  match editingShipment with
  | None => mret tt
  | Some shipment =>
      try_catch
        (error ← shipment_orders_update update_error editForm (id shipment);
         match error with
         | Some e => throw e
         | None =>
             record_call (Toast "Success" (Text "Shipment updated successfully"))
         end)
        (fun _ =>
           record_call (Toast "Error" (Text "Failed to update shipment")))
  end.

End ShipmentTable.

(** The worlds the application can produce from empty tables: requests
    to the edge function, file uploads, pasted emails and saved edits,
    under collaborators that satisfy [P] (and any answer to a saved
    edit). *)
Inductive app_reachable (P : env -> Prop) : world -> Prop :=
| app_empty : app_reachable P empty_world
| app_serve E req w :
    P E -> app_reachable P w -> app_reachable P (serve E req w).2
| app_upload E file w :
    P E -> app_reachable P w -> app_reachable P (handleFileUpload E file w).2
| app_email E emailContent w :
    P E -> app_reachable P w ->
    app_reachable P (handleEmailExtraction E emailContent w).2
| app_save update_error editingShipment editForm w :
    app_reachable P w ->
    app_reachable P
      (ShipmentTable.handleSave update_error editingShipment editForm w).2.

(** Any behaviour of the collaborators. *)
Definition any_env (E : env) : Prop := True.

(** ** Further concrete runs *)

Module Cases.

(** The extraction endpoint cannot be reached. *)
Definition offline : env :=
  mk_env Scenario.parse Scenario.ascii_trim 1756693216000%N
    (fun _ => None) (fun _ _ => None) (fun _ => None)
    Scenario.kept_text Scenario.kept_date Scenario.kept_decimal
    (fun _ => None) (fun path => "shipment-files/" +:+ path)
    (fun _ => None)
    (fun _ => FetchRejected (TypeError "error sending request")).

(** The file store rejects every upload. *)
Definition full_bucket : env :=
  mk_env Scenario.parse Scenario.ascii_trim 1756693216000%N
    (fun _ => None) (fun _ _ => None) (fun _ => None)
    Scenario.kept_text Scenario.kept_date Scenario.kept_decimal
    (fun _ => Some "The resource already exists")
    (fun path => "shipment-files/" +:+ path)
    (fun _ => None)
    (fun _ => FetchResponse 200 (BodyContent Scenario.text_A)).

(** An upstream answer with a member the handler does not insert, whose
    text holds the character NUL: the store takes the shipment order
    and rejects the payload snapshot for its [jsonb] column. *)
Definition text_remark : string :=
  "{" +:+ Scenario.quoted "customer_name" +:+ ":" +:+ Scenario.quoted "Jane Doe"
      +:+ "," +:+ Scenario.quoted "address" +:+ ":"
      +:+ Scenario.quoted "12 Oak St"
      +:+ "," +:+ Scenario.quoted "remark" +:+ ":"
      +:+ Scenario.quoted "\u0000" +:+ "}".

Definition payload_remark : value :=
  VObj [("customer_name", VStr "Jane Doe"); ("address", VStr "12 Oak St");
        ("remark", VStr (String (ascii_of_N 0) EmptyString))].

(** The shipment order that answer gives. *)
Definition order_remark : shipment_order :=
  mk_shipment_order 0
    (mk_shipment_order_insert (VStr "Jane Doe") (VStr "12 Oak St")
       VNull VNull VNull VNull None "order.txt" true "pending").

Definition rejecting_snapshot : env :=
  mk_env
    (fun s => if String.eqb s text_remark then Some payload_remark else None)
    Scenario.ascii_trim 1756693216000%N
    (fun _ => None)
    (fun _ _ => Some "unsupported Unicode escape sequence")
    (fun _ => None)
    Scenario.kept_text Scenario.kept_date Scenario.kept_decimal
    (fun _ => None) (fun path => "shipment-files/" +:+ path)
    (fun _ => None)
    (fun _ => FetchResponse 200 (BodyContent text_remark)).

Definition text_file : File :=
  mk_File "order.txt" "Ship to Jane Doe" (Some "Ship to Jane Doe").

Definition unreadable_file : File := mk_File "order.pdf" "%PDF" None.

(** The shipment order of scenario A as the store holds it, and as the
    table shows it. *)
Definition order_A : shipment_order :=
  mk_shipment_order 0
    (mk_shipment_order_insert (VStr "Jane Doe") (VStr "12 Oak St")
       (VStr "XZ100") VNull (VNum (Finite (5 # 2))) VNull
       None "order.txt" true "pending").

Definition jane : ShipmentTable.Shipment :=
  ShipmentTable.mk_Shipment 0 "Jane Doe" "12 Oak St" (Some "XZ100")
    None (Some (Finite (5 # 2))) None "pending" (Some "order.txt") true
    "2025-09-01T02:40:16Z" "2025-09-01T02:40:16Z".

(** The attempt of scenario C once it failed. *)
Definition attempt_C : parsing_log :=
  mk_parsing_log 0 "order.txt" None failed
    (Some "Missing required fields: customer_name and address")
    (Some Scenario.payload_C).

End Cases.

(** ** The paths of the handler *)

Ltac unfold_flow :=
  unfold extract_shipment_data, parsing_logs_insert, parsing_logs_update,
    shipment_orders_insert, fetch, completion_content, parse_json,
    try_catch, lift, record_call, state, throw;
  unfold mbind, M_bind, mret, M_ret.

Ltac reduce :=
  cbn -[pretty fresh completion_request required_fields_missing shipment_row
        alter insert dom String.append shipment_orders_insert_error
        typed_row json_row as_json].

Ltac close_path :=
  unfold evolve, attempt_after, resolved_attempt, new_attempt, attempt_id,
    shipment_id;
  repeat match goal with
  | |- context [parsing_logs_update_error ?E ?i ?u] =>
      destruct (parsing_logs_update_error E i u)
  end;
  reduce; rewrite ?alter_insert_eq, <- ?app_assoc; reflexivity.

Section Paths.
Context (E : env) (b : request_body) (w : world).

Let request := completion_request (fileContent b).

Lemma path_log_write_error m :
  parsing_logs_insert_error E (attempt_row b) = Some m ->
  extract_shipment_data E b w =
    (Throw (PostgrestError m),
     evolve w (parsing_logs w) (shipment_orders w)
       [InsertParsingLog (attempt_row b)]).
Proof.
  intros Hlog. unfold_flow. fold (attempt_row b). rewrite Hlog. reduce.
  close_path.
Qed.

Lemma path_fetch_rejected e :
  parsing_logs_insert_error E (attempt_row b) = None ->
  openai E request = FetchRejected e ->
  extract_shipment_data E b w =
    (Throw e,
     evolve w (<[attempt_id w := new_attempt b w]> (parsing_logs w))
       (shipment_orders w)
       [InsertParsingLog (attempt_row b); Fetch request]).
Proof.
  intros Hlog Hfetch. unfold_flow. fold (attempt_row b). rewrite Hlog. reduce.
  fold request. rewrite Hfetch. reduce. close_path.
Qed.

Lemma path_upstream_error st body :
  parsing_logs_insert_error E (attempt_row b) = None ->
  openai E request = FetchResponse st body ->
  response_ok st = false ->
  extract_shipment_data E b w =
    (Throw (Error ("OpenAI API error: " +:+ pretty st)),
     evolve w (<[attempt_id w := new_attempt b w]> (parsing_logs w))
       (shipment_orders w)
       [InsertParsingLog (attempt_row b); Fetch request]).
Proof.
  intros Hlog Hfetch Hok. unfold_flow. fold (attempt_row b). rewrite Hlog. reduce.
  fold request. rewrite Hfetch. reduce. rewrite Hok. reduce. close_path.
Qed.

Lemma path_body_unreadable st e :
  parsing_logs_insert_error E (attempt_row b) = None ->
  openai E request = FetchResponse st (BodyUnreadable e) ->
  response_ok st = true ->
  extract_shipment_data E b w =
    (Throw e,
     evolve w (<[attempt_id w := new_attempt b w]> (parsing_logs w))
       (shipment_orders w)
       [InsertParsingLog (attempt_row b); Fetch request]).
Proof.
  intros Hlog Hfetch Hok. unfold_flow. fold (attempt_row b). rewrite Hlog. reduce.
  fold request. rewrite Hfetch. reduce. rewrite Hok. reduce. close_path.
Qed.

Lemma path_invalid_format st extractedText :
  parsing_logs_insert_error E (attempt_row b) = None ->
  openai E request = FetchResponse st (BodyContent extractedText) ->
  response_ok st = true ->
  JSON_parse E extractedText = None ->
  let u := mk_parsing_log_update failed
             (Some "Failed to parse AI response as JSON")
             (VObj [("raw_response", VStr extractedText)]) in
  extract_shipment_data E b w =
    (Throw (Error "AI response was not valid JSON"),
     evolve w (<[attempt_id w := attempt_after E b w u]> (parsing_logs w))
       (shipment_orders w)
       [InsertParsingLog (attempt_row b); Fetch request;
        UpdateParsingLog (attempt_id w) u]).
Proof.
  intros Hlog Hfetch Hok Hparse u. subst u. unfold_flow.
  fold (attempt_row b). rewrite Hlog. reduce.
  fold request. rewrite Hfetch. reduce. rewrite Hok. reduce. rewrite Hparse. reduce.
  close_path.
Qed.

Lemma path_property_read_throws st extractedText extractedData e :
  parsing_logs_insert_error E (attempt_row b) = None ->
  openai E request = FetchResponse st (BodyContent extractedText) ->
  response_ok st = true ->
  JSON_parse E extractedText = Some extractedData ->
  required_fields_missing extractedData = Throw e ->
  extract_shipment_data E b w =
    (Throw e,
     evolve w (<[attempt_id w := new_attempt b w]> (parsing_logs w))
       (shipment_orders w)
       [InsertParsingLog (attempt_row b); Fetch request]).
Proof.
  intros Hlog Hfetch Hok Hparse Hreq. unfold_flow. fold (attempt_row b). rewrite Hlog. reduce.
  fold request. rewrite Hfetch. reduce. rewrite Hok. reduce. rewrite Hparse. reduce.
  rewrite Hreq. reduce. close_path.
Qed.

Lemma path_missing_fields st extractedText extractedData :
  parsing_logs_insert_error E (attempt_row b) = None ->
  openai E request = FetchResponse st (BodyContent extractedText) ->
  response_ok st = true ->
  JSON_parse E extractedText = Some extractedData ->
  required_fields_missing extractedData = Ok true ->
  let u := mk_parsing_log_update failed (Some missing_fields_message)
             extractedData in
  extract_shipment_data E b w =
    (Throw (Error missing_fields_message),
     evolve w (<[attempt_id w := attempt_after E b w u]> (parsing_logs w))
       (shipment_orders w)
       [InsertParsingLog (attempt_row b); Fetch request;
        UpdateParsingLog (attempt_id w) u]).
Proof.
  intros Hlog Hfetch Hok Hparse Hreq u. subst u. unfold_flow.
  fold (attempt_row b). rewrite Hlog. reduce.
  fold request. rewrite Hfetch. reduce. rewrite Hok. reduce. rewrite Hparse. reduce.
  rewrite Hreq. reduce. close_path.
Qed.

Lemma path_store_error st extractedText extractedData row m :
  parsing_logs_insert_error E (attempt_row b) = None ->
  openai E request = FetchResponse st (BodyContent extractedText) ->
  response_ok st = true ->
  JSON_parse E extractedText = Some extractedData ->
  required_fields_missing extractedData = Ok false ->
  shipment_row extractedData b = Ok row ->
  shipment_orders_insert_error E row = Some m ->
  let u := mk_parsing_log_update failed (Some m) extractedData in
  extract_shipment_data E b w =
    (Throw (PostgrestError m),
     evolve w (<[attempt_id w := attempt_after E b w u]> (parsing_logs w))
       (shipment_orders w)
       [InsertParsingLog (attempt_row b); Fetch request;
        InsertShipmentOrder row; UpdateParsingLog (attempt_id w) u]).
Proof.
  intros Hlog Hfetch Hok Hparse Hreq Hrow Hins u. subst u. unfold_flow.
  fold (attempt_row b). rewrite Hlog. reduce.
  fold request. rewrite Hfetch. reduce. rewrite Hok. reduce.
  rewrite Hparse. reduce. rewrite Hreq. reduce. rewrite Hrow. reduce.
  rewrite Hins. reduce. close_path.
Qed.

Lemma path_success st extractedText extractedData row :
  parsing_logs_insert_error E (attempt_row b) = None ->
  openai E request = FetchResponse st (BodyContent extractedText) ->
  response_ok st = true ->
  JSON_parse E extractedText = Some extractedData ->
  required_fields_missing extractedData = Ok false ->
  shipment_row extractedData b = Ok row ->
  shipment_orders_insert_error E row = None ->
  let u := mk_parsing_log_update success None extractedData in
  let shipmentData :=
    mk_shipment_order (shipment_id w) (typed_row E (json_row row)) in
  extract_shipment_data E b w =
    (Ok (shipmentData, extractedData),
     evolve w (<[attempt_id w := attempt_after E b w u]> (parsing_logs w))
       (<[shipment_id w := shipmentData]> (shipment_orders w))
       [InsertParsingLog (attempt_row b); Fetch request;
        InsertShipmentOrder row; UpdateParsingLog (attempt_id w) u]).
Proof.
  intros Hlog Hfetch Hok Hparse Hreq Hrow Hins u shipmentData.
  subst u shipmentData. unfold_flow.
  fold (attempt_row b). rewrite Hlog. reduce.
  fold request. rewrite Hfetch. reduce. rewrite Hok. reduce.
  rewrite Hparse. reduce. rewrite Hreq. reduce. rewrite Hrow. reduce.
  rewrite Hins. reduce. close_path.
Qed.
End Paths.

(** ** Reading the payload *)

Lemma calls_since_evolve w logs orders evs :
  calls_since w (evolve w logs orders evs) = evs.
Proof. unfold calls_since, evolve; cbn. apply drop_app_length. Qed.

Lemma Get_required_fields_missing p k v :
  Get p k = Ok v -> exists r, required_fields_missing p = Ok r.
Proof.
  unfold required_fields_missing.
  destruct p; cbn; try discriminate; intros _;
    repeat match goal with
    | |- context [if ?c then _ else _] => destruct c
    end; eauto.
Qed.

Lemma lacks_required p :
  lacks p "customer_name" \/ lacks p "address" ->
  required_fields_missing p = Ok true.
Proof.
  unfold lacks, required_fields_missing.
  intros [(v & Hget & Hv) | (v & Hget & Hv)].
  - rewrite Hget; cbn. now rewrite Hv.
  - destruct p; cbn in *; try discriminate.
    all: try (injection Hget as <-); cbn; try reflexivity.
    destruct (ToBoolean (own_property members "customer_name")); cbn;
      [now rewrite Hv | reflexivity].
Qed.

Lemma provides_required p :
  provides p "customer_name" -> provides p "address" ->
  required_fields_missing p = Ok false.
Proof.
  unfold provides, required_fields_missing.
  intros (v & Hget & Hv) (v' & Hget' & Hv').
  rewrite Hget; cbn. rewrite Hv; cbn. rewrite Hget'; cbn. now rewrite Hv'.
Qed.

Lemma required_provides p :
  required_fields_missing p = Ok false ->
  provides p "customer_name" /\ provides p "address".
Proof.
  unfold provides, required_fields_missing.
  destruct (Get p "customer_name") as [v|] eqn:Hn; cbn; [|discriminate].
  destruct (ToBoolean v) eqn:Hv; cbn; [|discriminate].
  destruct (Get p "address") as [v'|] eqn:Ha; cbn; [|discriminate].
  destruct (ToBoolean v') eqn:Hv'; cbn; [|discriminate].
  intros _; split; eexists; split; eauto.
Qed.

Lemma validated_row p b :
  required_fields_missing p = Ok false ->
  exists row, shipment_row p b = Ok row.
Proof.
  intros [(v & Hget & _) _]%required_provides.
  unfold shipment_row. destruct p; cbn in *; try discriminate; eauto.
Qed.

Lemma shipment_row_columns p b row :
  shipment_row p b = Ok row ->
  Get p "customer_name" = Ok (customer_name row) /\
  Get p "address" = Ok (address row) /\
  defaulted p "tracking_id" (tracking_id row) /\
  defaulted p "delivery_date" (delivery_date row) /\
  defaulted p "package_weight" (package_weight row) /\
  defaulted p "notes" (notes row) /\
  original_file_url row = fileUrl b /\
  original_file_name row = fileName b /\
  parsed_by_ai row = true /\
  order_status row = "pending".
Proof.
  unfold shipment_row, defaulted, js_or.
  destruct p; cbn; try discriminate; intros [= <-]; cbn;
    repeat split; eexists; split; reflexivity.
Qed.

(** ** What arrives as JSON *)

Lemma as_json_defined v : as_json v <> VUndefined.
Proof. destruct v as [| |?|[?|?]|?|?|?]; discriminate. Qed.

Lemma as_json_truthy v :
  ToBoolean v = true -> as_json v <> VNull -> ToBoolean (as_json v) = true.
Proof. destruct v as [| |?|[?|?]|?|?|?]; cbn; congruence. Qed.

Lemma as_json_members ms :
  as_json (VObj ms) =
    VObj (List.fold_right
            (fun kx acc =>
               match kx.2 with
               | VUndefined => acc
               | x => (kx.1, as_json x) :: acc
               end) [] ms).
Proof.
  cbn. f_equal. induction ms as [|[k x] ms IH]; [reflexivity|].
  cbn. rewrite <- IH. now destruct x.
Qed.

Lemma own_property_as_json ms k :
  Get (as_json (VObj ms)) k =
    Ok (match own_property ms k with
        | VUndefined => VUndefined
        | x => as_json x
        end).
Proof.
  rewrite as_json_members. cbn [Get]. f_equal.
  induction ms as [|[k' x] ms IH]; [reflexivity|].
  cbn [List.fold_right fst snd own_property].
  destruct (own_property ms k) eqn:Hlater.
  1: { destruct x; cbn [own_property]; rewrite IH;
         destruct (String.eqb k' k); try reflexivity.
       all: match goal with
            | |- context [as_json ?v] =>
                destruct (as_json v) eqn:Hj; try reflexivity;
                exfalso; exact (as_json_defined _ Hj)
            end. }
  all: destruct x; cbn [own_property]; rewrite IH;
    match goal with
    | |- context [as_json ?v] =>
        destruct (as_json v) eqn:Hj; try reflexivity;
        exfalso; exact (as_json_defined _ Hj)
    end.
Qed.

(** A payload whose shipment order the store accepts is still valid
    once it is sent as JSON. *)
Lemma accepted_payload_as_json E p b row :
  required_fields_missing p = Ok false ->
  shipment_row p b = Ok row ->
  shipment_orders_insert_error E row = None ->
  required_fields_missing (as_json p) = Ok false /\
  ToBoolean (as_json (customer_name row)) = true /\
  ToBoolean (as_json (address row)) = true.
Proof.
  intros Hreq Hrow Hins.
  destruct (required_provides p Hreq) as [(v & Hv & Htv) (v' & Hv' & Htv')].
  destruct (shipment_row_columns p b row Hrow) as (Hn & Ha & _).
  rewrite Hv in Hn. rewrite Hv' in Ha.
  injection Hn as Hn. injection Ha as Ha.
  unfold shipment_orders_insert_error, not_null_violation in Hins.
  cbn [json_row customer_name address] in Hins. rewrite <- Hn, <- Ha in Hins.
  assert (as_json v <> VNull /\ as_json v' <> VNull) as [Hjn Hja].
  { destruct (as_json v); [| discriminate Hins | ..];
      (destruct (as_json v'); [| try discriminate Hins | ..]);
      split; discriminate. }
  rewrite <- Hn, <- Ha.
  split; [|split; now apply as_json_truthy].
  destruct p; cbn in Hv, Hv'; try discriminate;
    try (injection Hv as <-; discriminate Htv).
  injection Hv as Hv. injection Hv' as Hv'.
  apply provides_required.
  - exists (as_json v). split; [|now apply as_json_truthy].
    rewrite own_property_as_json, Hv. destruct v; try reflexivity.
    discriminate.
  - exists (as_json v'). split; [|now apply as_json_truthy].
    rewrite own_property_as_json, Hv'. destruct v'; try reflexivity.
    discriminate.
Qed.

(** ** Every way the handler ends *)

Lemma extract_exits E b w : exit E b w (extract_shipment_data E b w).
Proof.
  destruct (parsing_logs_insert_error E (attempt_row b)) as [m|] eqn:Hlog.
  { rewrite (path_log_write_error E b w m Hlog). constructor. }
  destruct (openai E (completion_request (fileContent b)))
    as [e|st body] eqn:Hfetch.
  { rewrite (path_fetch_rejected E b w e Hlog Hfetch). constructor. }
  destruct (response_ok st) eqn:Hok.
  2: { rewrite (path_upstream_error E b w st body Hlog Hfetch Hok). constructor. }
  destruct body as [e|text].
  { rewrite (path_body_unreadable E b w st e Hlog Hfetch Hok). constructor. }
  destruct (JSON_parse E text) as [p|] eqn:Hparse.
  2: { rewrite (path_invalid_format E b w st text Hlog Hfetch Hok Hparse).
       constructor. }
  destruct (required_fields_missing p) as [[|]|e] eqn:Hreq.
  - rewrite (path_missing_fields E b w st text p Hlog Hfetch Hok Hparse Hreq).
    constructor.
  - destruct (validated_row p b Hreq) as [row Hrow].
    destruct (shipment_orders_insert_error E row) as [m|] eqn:Hins.
    + rewrite (path_store_error E b w st text p row m
                 Hlog Hfetch Hok Hparse Hreq Hrow Hins).
      now constructor.
    + rewrite (path_success E b w st text p row
                 Hlog Hfetch Hok Hparse Hreq Hrow Hins).
      now constructor.
  - rewrite (path_property_read_throws E b w st text p e
               Hlog Hfetch Hok Hparse Hreq).
    constructor.
Qed.

Lemma serve_throws E meth b w e w' :
  String.eqb meth "OPTIONS" = false ->
  extract_shipment_data E b w = (Throw e, w') ->
  serve E (mk_http_request meth (Ok b)) w = (error_response e, w').
Proof.
  intros Hm Hx. unfold serve; cbn. rewrite Hm.
  unfold mbind, M_bind, lift. now rewrite Hx.
Qed.

Lemma serve_returns E meth b w o p w' :
  String.eqb meth "OPTIONS" = false ->
  extract_shipment_data E b w = (Ok (o, p), w') ->
  serve E (mk_http_request meth (Ok b)) w =
    (mk_http_response 200 json_headers (Some (SuccessBody o (as_json p))), w').
Proof.
  intros Hm Hx. unfold serve; cbn -[as_json]. rewrite Hm.
  unfold mbind, M_bind, lift. now rewrite Hx.
Qed.

Lemma serve_world E req w :
  (serve E req w).2 = w \/
  exists b, (serve E req w).2 = (extract_shipment_data E b w).2.
Proof.
  unfold serve. destruct (String.eqb (method req) "OPTIONS"); [now left|].
  unfold mbind, M_bind, lift. destruct (json req) as [b|e]; [|now left].
  right. exists b. now destruct (extract_shipment_data E b w) as [[[o p]|e] w'].
Qed.

Lemma lookup_attempt w l orders evs :
  parsing_logs (evolve w (<[attempt_id w := l]> (parsing_logs w)) orders evs)
    !! attempt_id w = Some l.
Proof. cbn. apply lookup_insert_eq. Qed.

Lemma attempt_id_fresh w : parsing_logs w !! attempt_id w = None.
Proof. unfold attempt_id. apply not_elem_of_dom. apply is_fresh. Qed.

Lemma shipment_id_fresh w : shipment_orders w !! shipment_id w = None.
Proof. unfold shipment_id. apply not_elem_of_dom. apply is_fresh. Qed.

Lemma attempt_after_applied E b w u :
  update_applied E w u -> attempt_after E b w u = resolved_attempt b w u.
Proof. unfold update_applied, attempt_after. now intros ->. Qed.

Ltac count_calls :=
  cbn [fst snd]; rewrite ?calls_since_evolve; unfold count; cbn;
  rewrite ?Nat.eqb_refl; reflexivity.

(** ** The failure paths that are recorded *)

(** C5: when the text the extraction call yields is not JSON, the
    handler throws [Error('AI response was not valid JSON')] (the
    InvalidFormat failure); before that it has issued one update of the
    attempt, to [failed] with the message "Failed to parse AI response
    as JSON" and the snapshot [{ raw_response: <text> }], and no insert
    into [shipment_orders].  The handler does not look at the answer to
    the update: the attempt holds those columns when the store applies
    it. *)
Theorem invalid_format_is_recorded E b w extractedText :
  attempt_created E b ->
  upstream_yields E b extractedText ->
  JSON_parse E extractedText = None ->
  let u := mk_parsing_log_update failed
             (Some "Failed to parse AI response as JSON")
             (VObj [("raw_response", VStr extractedText)]) in
  let r := extract_shipment_data E b w in
  r.1 = Throw (Error "AI response was not valid JSON") /\
  calls_since w r.2 =
    [InsertParsingLog (attempt_row b);
     Fetch (completion_request (fileContent b));
     UpdateParsingLog (attempt_id w) u] /\
  shipment_orders r.2 = shipment_orders w /\
  (update_applied E w u ->
   parsing_logs r.2 !! attempt_id w =
     Some (mk_parsing_log (attempt_id w) (fileName b) (fileUrl b) failed
             (Some "Failed to parse AI response as JSON")
             (Some (VObj [("raw_response", VStr extractedText)])))).
Proof.
  intros Hlog (st & Hfetch & Hok) Hparse u r. subst u r.
  rewrite (path_invalid_format E b w st extractedText Hlog Hfetch Hok Hparse).
  cbn [fst snd].
  split; [reflexivity|]. split; [apply calls_since_evolve|].
  split; [reflexivity|].
  intros Happlied. rewrite lookup_attempt.
  exact (f_equal Some (attempt_after_applied E b w _ Happlied)).
Qed.

Lemma invalid_format_is_recorded_witness :
  parsing_logs
    (extract_shipment_data
       (Scenario.answering 200 Scenario.text_B None None)
       Scenario.body_A empty_world).2 !! attempt_id empty_world
  = Some (mk_parsing_log (attempt_id empty_world) "order.txt" None failed
            (Some "Failed to parse AI response as JSON")
            (Some (VObj [("raw_response", VStr Scenario.text_B)]))).
Proof.
  refine (proj2 (proj2 (proj2 (invalid_format_is_recorded
    (Scenario.answering 200 Scenario.text_B None None)
    Scenario.body_A empty_world Scenario.text_B _ _ _))) _).
  - reflexivity.
  - exists 200%N. split; reflexivity.
  - reflexivity.
  - reflexivity.
Defined.

(** C4, at an upstream answer that is the JSON text [null]: the parsed
    payload has no [customer_name], and the handler does not end with
    the MissingFields failure.  Reading [extractedData.customer_name]
    throws a TypeError, no update of the attempt is issued, and the
    attempt is still [processing]. *)
Lemma null_payload_is_not_reported_missing :
  let E := Scenario.answering 200 Scenario.text_null None None in
  let r := extract_shipment_data E Scenario.body_A empty_world in
  JSON_parse E Scenario.text_null = Some VNull /\
  ~ provides VNull "customer_name" /\
  r.1 = Throw (TypeError
                 "Cannot read properties of null (reading 'customer_name')") /\
  r.1 <> Throw (Error missing_fields_message) /\
  status <$> parsing_logs r.2 !! 0%nat = Some processing /\
  count (is_update_of 0) (calls_since empty_world r.2) = 0.
Proof.
  cbv zeta. split; [reflexivity|].
  split; [intros (v & Hget & _); discriminate Hget|].
  split; [vm_compute; reflexivity|].
  split; [vm_compute; discriminate|].
  split; vm_compute; reflexivity.
Qed.

(** X25: when reading the payload does not throw and [customer_name] or
    [address] is absent, the empty string or another falsy value, the
    handler throws [Error('Missing required fields: customer_name and
    address')]; before that it has issued one update of the attempt, to
    [failed] with that message and the parsed payload as snapshot, and
    no insert into [shipment_orders], which is unchanged.  The attempt
    holds those columns, the snapshot as JSON, when the store applies
    the update. *)
Theorem missing_fields_are_rejected E b w extractedText p :
  attempt_created E b ->
  upstream_yields E b extractedText ->
  JSON_parse E extractedText = Some p ->
  lacks p "customer_name" \/ lacks p "address" ->
  let u := mk_parsing_log_update failed
             (Some "Missing required fields: customer_name and address") p in
  let r := extract_shipment_data E b w in
  r.1 = Throw (Error "Missing required fields: customer_name and address") /\
  calls_since w r.2 =
    [InsertParsingLog (attempt_row b);
     Fetch (completion_request (fileContent b));
     UpdateParsingLog (attempt_id w) u] /\
  shipment_orders r.2 = shipment_orders w /\
  (update_applied E w u ->
   parsing_logs r.2 !! attempt_id w =
     Some (mk_parsing_log (attempt_id w) (fileName b) (fileUrl b) failed
             (Some "Missing required fields: customer_name and address")
             (Some (as_json p)))).
Proof.
  intros Hlog (st & Hfetch & Hok) Hparse Hreq%lacks_required u r. subst u r.
  rewrite (path_missing_fields E b w st extractedText p
             Hlog Hfetch Hok Hparse Hreq).
  cbn [fst snd].
  split; [reflexivity|]. split; [apply calls_since_evolve|].
  split; [reflexivity|].
  intros Happlied. rewrite lookup_attempt.
  exact (f_equal Some (attempt_after_applied E b w _ Happlied)).
Qed.

Lemma missing_fields_are_rejected_witness :
  parsing_logs
    (extract_shipment_data
       (Scenario.answering 200 Scenario.text_C None None)
       Scenario.body_A empty_world).2 !! attempt_id empty_world
  = Some Cases.attempt_C.
Proof.
  refine (proj2 (proj2 (proj2 (missing_fields_are_rejected
    (Scenario.answering 200 Scenario.text_C None None)
    Scenario.body_A empty_world Scenario.text_C
    Scenario.payload_C _ _ _ _))) _).
  - reflexivity.
  - exists 200%N. split; reflexivity.
  - reflexivity.
  - left. exists VUndefined. split; reflexivity.
  - reflexivity.
Defined.

(** C6: when the payload passed the validation and the record store
    rejects the insert into [shipment_orders], the handler throws the
    store's error (the StoreError failure) and [shipment_orders] is as
    it was before the call; before it throws, the handler has issued
    one update of the attempt, to [failed] with the store's message and
    the parsed payload as snapshot.  The attempt holds those columns,
    the snapshot as JSON, when the store applies the update. *)
Theorem store_error_is_recorded E b w extractedText p m :
  attempt_created E b ->
  upstream_yields E b extractedText ->
  JSON_parse E extractedText = Some p ->
  provides p "customer_name" ->
  provides p "address" ->
  (forall row, shipment_row p b = Ok row ->
               shipment_orders_insert_error E row = Some m) ->
  let u := mk_parsing_log_update failed (Some m) p in
  let r := extract_shipment_data E b w in
  r.1 = Throw (PostgrestError m) /\
  (exists row,
     shipment_row p b = Ok row /\
     calls_since w r.2 =
       [InsertParsingLog (attempt_row b);
        Fetch (completion_request (fileContent b));
        InsertShipmentOrder row;
        UpdateParsingLog (attempt_id w) u]) /\
  shipment_orders r.2 = shipment_orders w /\
  (update_applied E w u ->
   parsing_logs r.2 !! attempt_id w =
     Some (mk_parsing_log (attempt_id w) (fileName b) (fileUrl b) failed
             (Some m) (Some (as_json p)))).
Proof.
  intros Hlog (st & Hfetch & Hok) Hparse Hname Haddr Hstore u r. subst u r.
  pose proof (provides_required p Hname Haddr) as Hreq.
  destruct (validated_row p b Hreq) as [row Hrow].
  rewrite (path_store_error E b w st extractedText p row m
             Hlog Hfetch Hok Hparse Hreq Hrow (Hstore row Hrow)).
  cbn [fst snd].
  split; [reflexivity|].
  split; [exists row; split; [exact Hrow | apply calls_since_evolve]|].
  split; [reflexivity|].
  intros Happlied. rewrite lookup_attempt.
  exact (f_equal Some (attempt_after_applied E b w _ Happlied)).
Qed.

Lemma store_error_is_recorded_witness :
  parsing_logs
    (extract_shipment_data
       (Scenario.answering 200 Scenario.text_A None (Some "duplicate key"))
       Scenario.body_A empty_world).2 !! attempt_id empty_world
  = Some (mk_parsing_log (attempt_id empty_world) "order.txt" None failed
            (Some "duplicate key") (Some (as_json Scenario.payload_A))).
Proof.
  refine (proj2 (proj2 (proj2 (store_error_is_recorded
    (Scenario.answering 200 Scenario.text_A None (Some "duplicate key"))
    Scenario.body_A empty_world Scenario.text_A Scenario.payload_A
    "duplicate key" _ _ _ _ _ _))) _).
  - reflexivity.
  - exists 200%N. split; reflexivity.
  - reflexivity.
  - exists (VStr "Jane Doe"). split; reflexivity.
  - exists (VStr "12 Oak St"). split; reflexivity.
  - intros row Hrow. vm_compute in Hrow. injection Hrow as <-. reflexivity.
  - reflexivity.
Defined.

(** C7: when the store rejects the insert of the attempt, the handler
    throws the store's error (the LogWriteError failure) right away: the
    insert is the only call it has issued (no extraction call, no insert
    into [shipment_orders]), both tables are unchanged, and the caller
    gets status 500 with the store's message. *)
Theorem log_write_error_aborts E b w m :
  parsing_logs_insert_error E (attempt_row b) = Some m ->
  let r := extract_shipment_data E b w in
  r.1 = Throw (PostgrestError m) /\
  calls_since w r.2 = [InsertParsingLog (attempt_row b)] /\
  count is_fetch (calls_since w r.2) = 0 /\
  count is_shipment_insert (calls_since w r.2) = 0 /\
  parsing_logs r.2 = parsing_logs w /\
  shipment_orders r.2 = shipment_orders w /\
  forall meth, String.eqb meth "OPTIONS" = false ->
    (serve E (mk_http_request meth (Ok b)) w).1 =
      mk_http_response 500 json_headers (Some (ErrorBody m)).
Proof.
  intros Hlog r. subst r.
  pose proof (path_log_write_error E b w m Hlog) as Hpath.
  rewrite Hpath.
  split; [reflexivity|]. split; [cbn [snd]; apply calls_since_evolve|].
  split; [count_calls|]. split; [count_calls|].
  split; [reflexivity|]. split; [reflexivity|].
  intros meth Hmeth. now rewrite (serve_throws E meth b w _ _ Hmeth Hpath).
Qed.

Lemma log_write_error_aborts_witness :
  calls_since empty_world
    (extract_shipment_data
       (Scenario.answering 200 Scenario.text_A (Some "permission denied") None)
       Scenario.body_A empty_world).2
  = [InsertParsingLog (attempt_row Scenario.body_A)].
Proof.
  refine (proj1 (proj2 (log_write_error_aborts
    (Scenario.answering 200 Scenario.text_A (Some "permission denied") None)
    Scenario.body_A empty_world "permission denied" _))).
  reflexivity.
Defined.

(** ** The upstream failure *)

(** C2: when the extraction call answers with a status outside 200-299,
    the handler throws [Error(`OpenAI API error: ${status}`)] (the
    UpstreamError failure) and the caller gets status 500 with that
    message; the extraction call was issued once.  The attempt, however,
    is not updated: it is still the row inserted at the start, with status
    [processing] and no error message. *)
Theorem upstream_error_is_not_recorded E b w st body :
  attempt_created E b ->
  openai E (completion_request (fileContent b)) = FetchResponse st body ->
  response_ok st = false ->
  let r := extract_shipment_data E b w in
  r.1 = Throw (Error ("OpenAI API error: " +:+ pretty st)) /\
  count is_fetch (calls_since w r.2) = 1 /\
  count (is_update_of (attempt_id w)) (calls_since w r.2) = 0 /\
  parsing_logs r.2 !! attempt_id w =
    Some (mk_parsing_log (attempt_id w) (fileName b) (fileUrl b) processing
            None None) /\
  forall meth, String.eqb meth "OPTIONS" = false ->
    (serve E (mk_http_request meth (Ok b)) w).1 =
      mk_http_response 500 json_headers
        (Some (ErrorBody ("OpenAI API error: " +:+ pretty st))).
Proof.
  intros Hlog Hfetch Hok r. subst r.
  pose proof (path_upstream_error E b w st body Hlog Hfetch Hok) as Hpath.
  rewrite Hpath.
  split; [reflexivity|]. split; [count_calls|]. split; [count_calls|].
  split; [apply lookup_attempt|].
  intros meth Hmeth. now rewrite (serve_throws E meth b w _ _ Hmeth Hpath).
Qed.

Lemma upstream_error_is_not_recorded_witness :
  parsing_logs
    (extract_shipment_data
       (Scenario.answering 503 Scenario.text_A None None)
       Scenario.body_A empty_world).2 !! attempt_id empty_world
  = Some (mk_parsing_log (attempt_id empty_world) "order.txt" None processing
            None None).
Proof.
  refine (proj1 (proj2 (proj2 (proj2 (upstream_error_is_not_recorded
    (Scenario.answering 503 Scenario.text_A None None)
    Scenario.body_A empty_world 503 (BodyContent Scenario.text_A) _ _ _))))).
  - reflexivity.
  - reflexivity.
  - reflexivity.
Defined.

(** C1, at an extraction call answered with status 503: the flow ends by
    throwing, the attempt it created is still [processing], and no update
    of [parsing_logs] was issued. *)
Lemma upstream_failure_leaves_attempt_processing :
  let r := extract_shipment_data
             (Scenario.answering 503 Scenario.text_A None None)
             Scenario.body_A empty_world in
  r.1 = Throw (Error "OpenAI API error: 503") /\
  status <$> parsing_logs r.2 !! 0%nat = Some processing /\
  count (is_update_of 0) (calls_since empty_world r.2) = 0.
Proof. vm_compute. repeat split. Qed.

(** X5: The handler issues at most one update of the attempt it created.
    The attempt ends in [success] or [failed] only through such an
    update, issued with that status and applied by the store; when the
    attempt is left [processing], either no update was issued (the
    handler threw between the insert of the attempt and the parse, or
    reading the payload threw) or the store rejected the one that
    was. *)
Lemma attempt_terminal_only_by_update E b w l :
  let r := extract_shipment_data E b w in
  let evs := calls_since w r.2 in
  parsing_logs r.2 !! attempt_id w = Some l ->
  count (is_update_of (attempt_id w)) evs <= 1 /\
  (terminal (status l) = true ->
   exists u,
     In (UpdateParsingLog (attempt_id w) u) evs /\
     update_applied E w u /\ upd_status u = status l) /\
  (status l = processing ->
   count (is_update_of (attempt_id w)) evs = 0 \/
   exists u,
     In (UpdateParsingLog (attempt_id w) u) evs /\ ~ update_applied E w u).
Proof.
  intros r evs. subst r evs.
  assert (forall u,
            count (is_update_of (attempt_id w))
              [UpdateParsingLog (attempt_id w) u] = 1) as Hone.
  { intros u. unfold count; cbn. now rewrite Nat.eqb_refl. }
  assert (forall u,
            (terminal (status (attempt_after E b w u)) = true ->
             update_applied E w u /\
             upd_status u = status (attempt_after E b w u)) /\
            (status (attempt_after E b w u) = processing ->
             upd_status u = processing \/ ~ update_applied E w u)) as Hafter.
  { intros u. unfold attempt_after, update_applied.
    destruct (parsing_logs_update_error E (attempt_id w) u); cbn.
    - split; [discriminate|]. intros _. right. discriminate.
    - split; auto. }
  destruct (extract_exits E b w); cbn [snd]; rewrite calls_since_evolve.
  - cbn. now rewrite attempt_id_fresh.
  - rewrite lookup_attempt. intros [= <-]. cbn.
    split; [unfold count; cbn; lia|]. split; [discriminate|]. now left.
  - rewrite lookup_attempt. intros [= <-].
    destruct (Hafter (mk_parsing_log_update failed (Some m) d)) as [Ht Hp].
    split; [unfold count; cbn; rewrite Nat.eqb_refl; cbn; lia|]. split.
    + intros Hst. destruct (Ht Hst). eexists. split; [|eauto]. cbn. auto.
    + intros Hst. destruct (Hp Hst) as [Habs|Hrej]; [discriminate Habs|].
      right. eexists. split; [|exact Hrej]. cbn. auto.
  - rewrite lookup_attempt. intros [= <-].
    destruct (Hafter (mk_parsing_log_update failed (Some m) p)) as [Ht Hp].
    split; [unfold count; cbn; rewrite Nat.eqb_refl; cbn; lia|]. split.
    + intros Hst. destruct (Ht Hst). eexists. split; [|eauto]. cbn. auto.
    + intros Hst. destruct (Hp Hst) as [Habs|Hrej]; [discriminate Habs|].
      right. eexists. split; [|exact Hrej]. cbn. auto.
  - rewrite lookup_attempt. intros [= <-].
    destruct (Hafter (mk_parsing_log_update success None p)) as [Ht Hp].
    split; [unfold count; cbn; rewrite Nat.eqb_refl; cbn; lia|]. split.
    + intros Hst. destruct (Ht Hst). eexists. split; [|eauto]. cbn. auto.
    + intros Hst. destruct (Hp Hst) as [Habs|Hrej]; [discriminate Habs|].
      right. eexists. split; [|exact Hrej]. cbn. auto.
Qed.

Lemma attempt_terminal_only_by_update_witness :
  count (is_update_of (attempt_id empty_world))
    (calls_since empty_world
       (extract_shipment_data
          (Scenario.answering 200 Scenario.text_B None None)
          Scenario.body_A empty_world).2) <= 1.
Proof.
  refine (proj1 (attempt_terminal_only_by_update
            (Scenario.answering 200 Scenario.text_B None None)
            Scenario.body_A empty_world
            (mk_parsing_log 0 "order.txt" None failed
               (Some "Failed to parse AI response as JSON")
               (Some (VObj [("raw_response", VStr Scenario.text_B)]))) _)).
  reflexivity.
Defined.

(** ** The successful path *)

(** What the handler leaves when the payload passed the validation and
    the store accepted the shipment order. *)
Lemma success_outcome E b w extractedText p :
  attempt_created E b ->
  upstream_yields E b extractedText ->
  JSON_parse E extractedText = Some p ->
  provides p "customer_name" ->
  provides p "address" ->
  (forall row, shipment_row p b = Ok row ->
               shipment_orders_insert_error E row = None) ->
  exists row,
    shipment_row p b = Ok row /\
    extract_shipment_data E b w =
      (Ok (mk_shipment_order (shipment_id w) (typed_row E (json_row row)), p),
       evolve w
         (<[attempt_id w :=
              attempt_after E b w (mk_parsing_log_update success None p)]>
            (parsing_logs w))
         (<[shipment_id w :=
              mk_shipment_order (shipment_id w) (typed_row E (json_row row))]>
            (shipment_orders w))
         [InsertParsingLog (attempt_row b);
          Fetch (completion_request (fileContent b));
          InsertShipmentOrder row;
          UpdateParsingLog (attempt_id w)
            (mk_parsing_log_update success None p)]).
Proof.
  intros Hlog (st & Hfetch & Hok) Hparse Hname Haddr Hstore.
  pose proof (provides_required p Hname Haddr) as Hreq.
  destruct (validated_row p b Hreq) as [row Hrow].
  exists row. split; [exact Hrow|].
  exact (path_success E b w st extractedText p row
           Hlog Hfetch Hok Hparse Hreq Hrow (Hstore row Hrow)).
Qed.

(** C3, as amended: when the parsed payload has a non-empty
    [customer_name] and [address] and the store accepts the row, the
    handler sends a row whose [customer_name] and [address] are the
    payload's, whose optional columns are the payload's value when that
    is truthy and [null] when it is absent or falsy, with status
    'pending', [parsed_by_ai] true and the file name and file reference
    of the request.  It returns the shipment order the store made of
    that row, a new row of [shipment_orders]: the values as they arrive
    as JSON, typed by their columns.  It has then issued one update of
    the attempt, to [success] with the parsed payload as snapshot; the
    attempt holds those columns, the snapshot as JSON, when the store
    applies the update. *)
Theorem valid_payload_is_persisted E b w extractedText p :
  attempt_created E b ->
  upstream_yields E b extractedText ->
  JSON_parse E extractedText = Some p ->
  provides p "customer_name" ->
  provides p "address" ->
  (forall row, shipment_row p b = Ok row ->
               shipment_orders_insert_error E row = None) ->
  let u := mk_parsing_log_update success None p in
  let r := extract_shipment_data E b w in
  exists row o,
    r.1 = Ok (o, p) /\
    Get p "customer_name" = Ok (customer_name row) /\
    Get p "address" = Ok (address row) /\
    defaulted p "tracking_id" (tracking_id row) /\
    defaulted p "delivery_date" (delivery_date row) /\
    defaulted p "package_weight" (package_weight row) /\
    defaulted p "notes" (notes row) /\
    original_file_url row = fileUrl b /\
    original_file_name row = fileName b /\
    parsed_by_ai row = true /\
    order_status row = "pending" /\
    order_columns o = typed_row E (json_row row) /\
    shipment_orders w !! order_id o = None /\
    shipment_orders r.2 = <[order_id o := o]> (shipment_orders w) /\
    calls_since w r.2 =
      [InsertParsingLog (attempt_row b);
       Fetch (completion_request (fileContent b));
       InsertShipmentOrder row;
       UpdateParsingLog (attempt_id w) u] /\
    (update_applied E w u ->
     parsing_logs r.2 !! attempt_id w =
       Some (mk_parsing_log (attempt_id w) (fileName b) (fileUrl b) success
               None (Some (as_json p)))).
Proof.
  intros Hlog Hup Hparse Hname Haddr Hstore u r. subst u r.
  destruct (success_outcome E b w extractedText p
              Hlog Hup Hparse Hname Haddr Hstore) as (row & Hrow & ->).
  exists row, (mk_shipment_order (shipment_id w) (typed_row E (json_row row))).
  cbn [fst snd order_id order_columns].
  split; [reflexivity|].
  destruct (shipment_row_columns p b row Hrow)
    as (? & ? & ? & ? & ? & ? & ? & ? & ? & ?).
  repeat (split; [assumption|]).
  split; [reflexivity|]. split; [apply shipment_id_fresh|].
  split; [reflexivity|]. split; [apply calls_since_evolve|].
  intros Happlied. rewrite lookup_attempt.
  exact (f_equal Some (attempt_after_applied E b w _ Happlied)).
Qed.

Lemma valid_payload_is_persisted_witness :
  exists row o,
    (extract_shipment_data
       (Scenario.answering 200 Scenario.text_A None None)
       Scenario.body_A empty_world).1 = Ok (o, Scenario.payload_A) /\
    defaulted Scenario.payload_A "notes" (notes row) /\
    order_columns o =
      typed_row (Scenario.answering 200 Scenario.text_A None None)
        (json_row row).
Proof.
  destruct (valid_payload_is_persisted
    (Scenario.answering 200 Scenario.text_A None None)
    Scenario.body_A empty_world Scenario.text_A Scenario.payload_A)
    as (row & o & Hres & _ & _ & _ & _ & _ & Hnotes & _ & _ & _ & _ & Hcols & _).
  - reflexivity.
  - exists 200%N. split; reflexivity.
  - reflexivity.
  - exists (VStr "Jane Doe"). split; reflexivity.
  - exists (VStr "12 Oak St"). split; reflexivity.
  - intros row Hrow. vm_compute in Hrow. injection Hrow as <-. reflexivity.
  - exists row, o. repeat split; assumption.
Defined.

(** C3 as the specification states it fails: a payload with
    [package_weight] 0 (and [tracking_id] the empty string) is persisted
    with [null] in those columns, not with the payload's values. *)
Lemma falsy_fields_are_not_copied :
  exists o,
    (extract_shipment_data
       (Scenario.answering 200 Scenario.text_zero_weight None None)
       Scenario.body_A empty_world).1
      = Ok (o, Scenario.payload_zero_weight) /\
    provides Scenario.payload_zero_weight "customer_name" /\
    provides Scenario.payload_zero_weight "address" /\
    ~ copies_payload Scenario.payload_zero_weight (order_columns o).
Proof.
  eexists. split; [vm_compute; reflexivity|].
  split; [eexists; split; reflexivity|].
  split; [eexists; split; reflexivity|].
  intros (_ & _ & _ & _ & (v & Hget & Hcol) & _).
  vm_compute in Hget. injection Hget as <-. discriminate Hcol.
Qed.

(** C10: when the payload is persisted, an optional field whose value in
    the payload is falsy (zero, the empty string, [false], [null]; or the
    member is absent) is stored as [null]. *)
Theorem falsy_optional_fields_are_stored_as_null E b w extractedText p :
  attempt_created E b ->
  upstream_yields E b extractedText ->
  JSON_parse E extractedText = Some p ->
  provides p "customer_name" ->
  provides p "address" ->
  (forall row, shipment_row p b = Ok row ->
               shipment_orders_insert_error E row = None) ->
  let r := extract_shipment_data E b w in
  exists o,
    r.1 = Ok (o, p) /\
    shipment_orders r.2 !! order_id o = Some o /\
    (lacks p "tracking_id" -> tracking_id (order_columns o) = VNull) /\
    (lacks p "delivery_date" -> delivery_date (order_columns o) = VNull) /\
    (lacks p "package_weight" -> package_weight (order_columns o) = VNull) /\
    (lacks p "notes" -> notes (order_columns o) = VNull).
Proof.
  intros Hlog Hup Hparse Hname Haddr Hstore r. subst r.
  destruct (success_outcome E b w extractedText p
              Hlog Hup Hparse Hname Haddr Hstore) as (row & Hrow & ->).
  exists (mk_shipment_order (shipment_id w) (typed_row E (json_row row))).
  cbn [fst snd order_id order_columns].
  split; [reflexivity|]. split; [cbn; apply lookup_insert_eq|].
  destruct (shipment_row_columns p b row Hrow)
    as (_ & _ & Ht & Hd & Hw & Hn & _).
  cbn [typed_row json_row tracking_id delivery_date package_weight notes].
  repeat split; intros (v & Hget & Hv);
    [ destruct Ht as (v' & Hget' & ->)
    | destruct Hd as (v' & Hget' & ->)
    | destruct Hw as (v' & Hget' & ->)
    | destruct Hn as (v' & Hget' & ->) ];
    rewrite Hget in Hget'; injection Hget' as <-; now rewrite Hv.
Qed.

Lemma falsy_optional_fields_are_stored_as_null_witness :
  exists o,
    (extract_shipment_data
       (Scenario.answering 200 Scenario.text_zero_weight None None)
       Scenario.body_A empty_world).1
      = Ok (o, Scenario.payload_zero_weight) /\
    package_weight (order_columns o) = VNull /\
    tracking_id (order_columns o) = VNull.
Proof.
  destruct (falsy_optional_fields_are_stored_as_null
    (Scenario.answering 200 Scenario.text_zero_weight None None)
    Scenario.body_A empty_world Scenario.text_zero_weight
    Scenario.payload_zero_weight)
    as (o & Hres & _ & Ht & _ & Hw & _).
  - reflexivity.
  - exists 200%N. split; reflexivity.
  - reflexivity.
  - exists (VStr "Jane Doe"). split; reflexivity.
  - exists (VStr "12 Oak St"). split; reflexivity.
  - intros row Hrow. vm_compute in Hrow. injection Hrow as <-. reflexivity.
  - exists o. split; [exact Hres|]. split.
    + apply Hw. exists (VNum (Finite 0)). split; reflexivity.
    + apply Ht. exists (VStr ""). split; reflexivity.
Defined.

(** X27: A number the payload gives beyond the range of a double is read
    as [Infinity]: for an optional field it is truthy and passes
    [|| null], but JSON has no such number and the row arrives with
    [null] there; the column of the persisted shipment order is
    [null] (and so is the member of the snapshot the attempt is
    updated with). *)
Theorem overflowed_number_is_stored_as_null E b w extractedText p negative :
  attempt_created E b ->
  upstream_yields E b extractedText ->
  JSON_parse E extractedText = Some p ->
  provides p "customer_name" ->
  provides p "address" ->
  (forall row, shipment_row p b = Ok row ->
               shipment_orders_insert_error E row = None) ->
  Get p "package_weight" = Ok (VNum (Infinity negative)) ->
  let r := extract_shipment_data E b w in
  exists row o,
    r.1 = Ok (o, p) /\
    In (InsertShipmentOrder row) (calls_since w r.2) /\
    package_weight row = VNum (Infinity negative) /\
    shipment_orders r.2 !! order_id o = Some o /\
    package_weight (order_columns o) = VNull /\
    Get (as_json p) "package_weight" = Ok VNull.
Proof.
  intros Hlog Hup Hparse Hname Haddr Hstore Hweight r. subst r.
  destruct (success_outcome E b w extractedText p
              Hlog Hup Hparse Hname Haddr Hstore) as (row & Hrow & ->).
  exists row, (mk_shipment_order (shipment_id w) (typed_row E (json_row row))).
  cbn [fst snd order_id order_columns]. rewrite calls_since_evolve.
  destruct (shipment_row_columns p b row Hrow)
    as (_ & _ & _ & _ & (v & Hget & Hcol) & _).
  rewrite Hweight in Hget. injection Hget as <-. cbn in Hcol.
  split; [reflexivity|]. split; [cbn; auto|]. split; [exact Hcol|].
  split; [cbn; apply lookup_insert_eq|].
  split; [cbn [typed_row json_row package_weight]; now rewrite Hcol|].
  destruct p; cbn in Hweight; try discriminate.
  injection Hweight as Hweight. now rewrite own_property_as_json, Hweight.
Qed.

Lemma overflowed_number_is_stored_as_null_witness :
  exists row o,
    (extract_shipment_data
       (Scenario.answering 200 Scenario.text_overflow None None)
       Scenario.body_A empty_world).1
      = Ok (o, Scenario.payload_overflow) /\
    package_weight row = VNum (Infinity false) /\
    package_weight (order_columns o) = VNull.
Proof.
  destruct (overflowed_number_is_stored_as_null
    (Scenario.answering 200 Scenario.text_overflow None None)
    Scenario.body_A empty_world Scenario.text_overflow
    Scenario.payload_overflow false)
    as (row & o & Hres & _ & Hsent & _ & Hstored & _).
  - reflexivity.
  - exists 200%N. split; reflexivity.
  - reflexivity.
  - exists (VStr "Jane Doe"). split; reflexivity.
  - exists (VStr "12 Oak St"). split; reflexivity.
  - intros row Hrow. vm_compute in Hrow. injection Hrow as <-. reflexivity.
  - reflexivity.
  - exists row, o. repeat split; assumption.
Defined.

(** ** Shipment orders and successful attempts *)

Lemma successes_insert_success logs a l :
  logs !! a = None -> status l = success ->
  size (successes (<[a := l]> logs)) = S (size (successes logs)).
Proof.
  intros Hnone Hs. unfold successes.
  rewrite map_filter_insert_True by exact Hs.
  apply map_size_insert_None.
  apply map_lookup_filter_None. left. exact Hnone.
Qed.

Lemma successes_insert_other logs a l :
  logs !! a = None -> status l <> success ->
  successes (<[a := l]> logs) = successes logs.
Proof.
  intros Hnone Hs. unfold successes.
  apply map_filter_insert_not'; [exact Hs|].
  intros y Hy. congruence.
Qed.

(** The status of the attempt after an update was issued. *)
Lemma attempt_after_status E b w u :
  (update_applied E w u /\ attempt_after E b w u = resolved_attempt b w u) \/
  (~ update_applied E w u /\ attempt_after E b w u = new_attempt b w).
Proof.
  unfold attempt_after, update_applied.
  destruct (parsing_logs_update_error E (attempt_id w) u); [right|left];
    split; auto; discriminate.
Qed.

Lemma attempt_after_failed E b w m d :
  status (attempt_after E b w (mk_parsing_log_update failed m d)) <> success.
Proof.
  destruct (attempt_after_status E b w (mk_parsing_log_update failed m d))
    as [[_ ->] | [_ ->]]; discriminate.
Qed.

Lemma sound_tables w w' :
  parsing_logs w' = parsing_logs w -> size (shipment_orders w') = size (shipment_orders w) ->
  sound w -> sound w'.
Proof. unfold sound. intros -> ->. auto. Qed.

Lemma consistent_tables w w' :
  parsing_logs w' = parsing_logs w -> size (shipment_orders w') = size (shipment_orders w) ->
  consistent w -> consistent w'.
Proof. unfold consistent. intros -> ->. auto. Qed.

Lemma sound_insert_other w l evs :
  status l <> success ->
  sound w ->
  sound (evolve w (<[attempt_id w := l]> (parsing_logs w))
           (shipment_orders w) evs).
Proof.
  intros Hs [Hsize Hval]. split; cbn.
  - rewrite successes_insert_other; auto using attempt_id_fresh.
  - intros a l' Hl' Hs'. destruct (decide (a = attempt_id w)) as [->|Hne].
    + rewrite lookup_insert_eq in Hl'. congruence.
    + rewrite lookup_insert_ne in Hl' by congruence. eauto.
Qed.

Lemma consistent_insert_other w l evs :
  status l <> success ->
  consistent w ->
  consistent (evolve w (<[attempt_id w := l]> (parsing_logs w))
                (shipment_orders w) evs).
Proof.
  intros Hs [Hsize Hval]. split; cbn.
  - rewrite successes_insert_other; auto using attempt_id_fresh.
  - intros a l' Hl' Hs'. destruct (decide (a = attempt_id w)) as [->|Hne].
    + rewrite lookup_insert_eq in Hl'. congruence.
    + rewrite lookup_insert_ne in Hl' by congruence. eauto.
Qed.

Lemma succeeded_resolved E b w p row :
  required_fields_missing p = Ok false ->
  shipment_row p b = Ok row ->
  shipment_orders_insert_error E row = None ->
  succeeded (resolved_attempt b w (mk_parsing_log_update success None p)).
Proof.
  intros Hreq Hrow Hins. split; [reflexivity|].
  exists (as_json p). split; [reflexivity|].
  exact (proj1 (accepted_payload_as_json E p b row Hreq Hrow Hins)).
Qed.

Lemma exit_sound E b w r :
  sound w -> exit E b w r -> sound r.2.
Proof.
  intros Hw Hexit.
  destruct Hexit as [e|e|e m d|m p row Hreq Hrow Hins|p row Hreq Hrow Hins];
    cbn [snd].
  - destruct Hw as [Hsize Hval]. split; cbn; assumption.
  - apply sound_insert_other; [discriminate | exact Hw].
  - apply sound_insert_other; [apply attempt_after_failed | exact Hw].
  - apply sound_insert_other; [apply attempt_after_failed | exact Hw].
  - destruct Hw as [Hsize Hval].
    destruct (attempt_after_status E b w (mk_parsing_log_update success None p))
      as [[_ ->] | [_ ->]]; split; cbn.
    + rewrite map_size_insert_None by apply shipment_id_fresh.
      rewrite successes_insert_success;
        [lia | apply attempt_id_fresh | reflexivity].
    + intros a l Hl Hs. destruct (decide (a = attempt_id w)) as [->|Hne].
      * rewrite lookup_insert_eq in Hl. injection Hl as <-.
        exact (succeeded_resolved E b w p row Hreq Hrow Hins).
      * rewrite lookup_insert_ne in Hl by congruence. eauto.
    + rewrite map_size_insert_None by apply shipment_id_fresh.
      rewrite successes_insert_other;
        [lia | apply attempt_id_fresh | discriminate].
    + intros a l Hl Hs. destruct (decide (a = attempt_id w)) as [->|Hne].
      * rewrite lookup_insert_eq in Hl. injection Hl as <-. discriminate Hs.
      * rewrite lookup_insert_ne in Hl by congruence. eauto.
Qed.

Lemma exit_consistent E b w r :
  applies_updates E -> consistent w -> exit E b w r -> consistent r.2.
Proof.
  intros HE Hw Hexit.
  destruct Hexit as [e|e|e m d|m p row Hreq Hrow Hins|p row Hreq Hrow Hins];
    cbn [snd].
  - destruct Hw as [Hsize Hval]. split; cbn; assumption.
  - apply consistent_insert_other; [discriminate | exact Hw].
  - apply consistent_insert_other; [apply attempt_after_failed | exact Hw].
  - apply consistent_insert_other; [apply attempt_after_failed | exact Hw].
  - destruct Hw as [Hsize Hval].
    rewrite (attempt_after_applied E b w _ (HE _ _)). split; cbn.
    + rewrite map_size_insert_None by apply shipment_id_fresh.
      rewrite successes_insert_success;
        [congruence | apply attempt_id_fresh | reflexivity].
    + intros a l Hl Hs. destruct (decide (a = attempt_id w)) as [->|Hne].
      * rewrite lookup_insert_eq in Hl. injection Hl as <-.
        exact (succeeded_resolved E b w p row Hreq Hrow Hins).
      * rewrite lookup_insert_ne in Hl by congruence. eauto.
Qed.

Lemma extract_sound E b w : sound w -> sound (extract_shipment_data E b w).2.
Proof. intros Hw. eapply exit_sound; [exact Hw | apply extract_exits]. Qed.

Lemma extract_consistent E b w :
  applies_updates E -> consistent w ->
  consistent (extract_shipment_data E b w).2.
Proof.
  intros HE Hw. eapply exit_consistent; [exact HE | exact Hw | apply extract_exits].
Qed.

(** C8, at an upstream answer whose snapshot the store rejects (a text
    with the character NUL, which a [jsonb] column does not take): the
    handler inserted the shipment order before it issued the update to
    [success], and it does not look at the answer to that update.  The
    caller gets status 200, [shipment_orders] holds the order, and the
    only attempt is still [processing]: no attempt reached [success]. *)
Lemma order_without_successful_attempt :
  let r := serve Cases.rejecting_snapshot
             (mk_http_request "POST" (Ok Scenario.body_A)) empty_world in
  reachable r.2 /\
  resp_status r.1 = 200%N /\
  shipment_orders r.2 !! 0%nat = Some Cases.order_remark /\
  parsing_logs r.2 =
    {[ 0%nat := mk_parsing_log 0 "order.txt" None processing None None ]} /\
  ~ (exists a l, parsing_logs r.2 !! a = Some l /\ status l = success).
Proof.
  cbv zeta. split; [apply reachable_serve, reachable_empty|].
  split; [vm_compute; reflexivity|].
  split; [vm_compute; reflexivity|].
  assert (parsing_logs
            (serve Cases.rejecting_snapshot
               (mk_http_request "POST" (Ok Scenario.body_A)) empty_world).2 =
          {[ 0%nat := mk_parsing_log 0 "order.txt" None processing None None ]})
    as Hlogs by (vm_compute; reflexivity).
  split; [exact Hlogs|].
  intros (a & l & Hl & Hs). rewrite Hlogs in Hl.
  apply lookup_singleton_Some in Hl. destruct Hl as [_ <-]. discriminate Hs.
Qed.

(** X26: What one call leaves in [shipment_orders], by the status its
    attempt ends in.  [failed]: nothing, the table is as it was.
    [success]: the payload passed the validation and the call added
    one shipment order.  [processing]: nothing, unless the order was
    added and the store rejected the update to [success] that
    followed. *)
Theorem attempt_status_and_order E b w l :
  let r := extract_shipment_data E b w in
  parsing_logs r.2 !! attempt_id w = Some l ->
  (status l = failed -> shipment_orders r.2 = shipment_orders w) /\
  (status l = success ->
   succeeded l /\
   exists o, shipment_orders r.2 = <[shipment_id w := o]> (shipment_orders w)) /\
  (status l = processing ->
   shipment_orders r.2 = shipment_orders w \/
   exists o u,
     shipment_orders r.2 = <[shipment_id w := o]> (shipment_orders w) /\
     In (UpdateParsingLog (attempt_id w) u) (calls_since w r.2) /\
     upd_status u = success /\
     ~ update_applied E w u).
Proof.
  intros r. subst r.
  destruct (extract_exits E b w)
    as [e|e|e m d|m p row Hreq Hrow Hins|p row Hreq Hrow Hins];
    cbn [snd]; rewrite ?lookup_attempt, ?calls_since_evolve.
  - cbn. rewrite attempt_id_fresh. discriminate.
  - intros [= <-]. cbn. repeat split; try discriminate. now left.
  - intros [= <-].
    pose proof (attempt_after_failed E b w (Some m) d) as Hns.
    split; [reflexivity|]. split; [contradiction | now left].
  - intros [= <-].
    pose proof (attempt_after_failed E b w (Some m) p) as Hns.
    split; [reflexivity|]. split; [contradiction | now left].
  - intros [= <-].
    destruct (attempt_after_status E b w (mk_parsing_log_update success None p))
      as [[_ ->] | [Hrej ->]].
    + split; [discriminate|]. split; [|discriminate].
      intros _. split; [exact (succeeded_resolved E b w p row Hreq Hrow Hins)|].
      eexists. reflexivity.
    + split; [discriminate|]. split; [discriminate|].
      intros _. right. do 2 eexists. split; [reflexivity|].
      split; [cbn; auto 6|]. split; [reflexivity | exact Hrej].
Qed.

Lemma attempt_status_and_order_witness :
  shipment_orders
    (extract_shipment_data
       (Scenario.answering 200 Scenario.text_C None None)
       Scenario.body_A empty_world).2
  = shipment_orders empty_world.
Proof.
  refine (proj1 (attempt_status_and_order
    (Scenario.answering 200 Scenario.text_C None None)
    Scenario.body_A empty_world Cases.attempt_C _) _).
  - reflexivity.
  - reflexivity.
Defined.

(** ** Pasted email text *)

Lemma count_app p evs evs' : count p (evs ++ evs') = count p evs + count p evs'.
Proof. unfold count. now rewrite List.filter_app, length_app. Qed.

(** The calls of the edge function go to the record store and to the
    extraction endpoint only, and the attempt it creates carries the file
    name and file reference of the request. *)
Lemma exit_frame E b w r :
  exit E b w r ->
  exists logs orders evs,
    r.2 = evolve w logs orders evs /\
    count is_storage_upload evs = 0 /\
    count is_invoke evs = 0 /\
    forall l, logs !! attempt_id w = Some l ->
              file_name l = fileName b /\ file_url l = fileUrl b.
Proof.
  intros Hexit.
  assert (forall u, file_name (attempt_after E b w u) = fileName b /\
                    file_url (attempt_after E b w u) = fileUrl b) as Hafter.
  { intros u. unfold attempt_after.
    now destruct (parsing_logs_update_error E (attempt_id w) u). }
  destruct Hexit as [e|e|e m d|m p row Hreq Hrow Hins|p row Hreq Hrow Hins];
    cbn [snd]; do 3 eexists; (split; [reflexivity|]);
    (split; [reflexivity|]); (split; [reflexivity|]); intros l.
  - rewrite attempt_id_fresh. discriminate.
  - rewrite lookup_insert_eq. now intros [= <-].
  - rewrite lookup_insert_eq. intros [= <-]. apply Hafter.
  - rewrite lookup_insert_eq. intros [= <-]. apply Hafter.
  - rewrite lookup_insert_eq. intros [= <-]. apply Hafter.
Qed.

(** [supabase.functions.invoke] in terms of the handler's [try] block. *)
Lemma functions_invoke_extract E body w :
  let w0 := evolve w (parsing_logs w) (shipment_orders w)
              [FunctionsInvoke "extract-shipment-data" body] in
  functions_invoke E "extract-shipment-data" body w =
    match functions_invoke_error E body with
    | Some m => (Ok (Failed (Error m)), w0)
    | None =>
        match extract_shipment_data E body w0 with
        | (Ok (o, p), w1) => (Ok (Data (Some (SuccessBody o (as_json p)))), w1)
        | (Throw e, w1) =>
            (Ok (Failed (Error "Edge Function returned a non-2xx status code")),
             w1)
        end
    end.
Proof.
  intros w0. unfold functions_invoke, record_call, state.
  unfold mbind, M_bind. cbn [fst snd].
  change (mk_world (parsing_logs w) (shipment_orders w) (shipment_files w)
            (calls w ++ [FunctionsInvoke "extract-shipment-data" body]))
    with w0.
  destruct (functions_invoke_error E body) as [m|]; [reflexivity|].
  destruct (extract_shipment_data E body w0) as [[[o p]|e] w1] eqn:Hx.
  - now rewrite (serve_returns E "POST" body w0 o p w1 eq_refl Hx).
  - now rewrite (serve_throws E "POST" body w0 e w1 eq_refl Hx).
Qed.

(** The payload of a success answer is an object: reading its
    [customer_name] does not throw. *)
Lemma validated_payload_as_json p :
  required_fields_missing p = Ok false ->
  exists v, Get (as_json p) "customer_name" = Ok v.
Proof.
  intros [(v & Hget & Hv) _]%required_provides.
  destruct p; cbn in Hget; try discriminate;
    try (injection Hget as <-; discriminate Hv).
  rewrite own_property_as_json. eauto.
Qed.

(** [extractDataFromFile] followed by the report of its result, in terms
    of the handler's [try] block. *)
Lemma submit_outcome E fileContent fileName fileUrl w :
  let body := mk_request_body fileContent fileName (or_null fileUrl) in
  let w0 := evolve w (parsing_logs w) (shipment_orders w)
              [FunctionsInvoke "extract-shipment-data" body] in
  (extractDataFromFile E fileContent fileName fileUrl ≫= report_result) w =
    match functions_invoke_error E body with
    | Some m => (Throw (Error m), w0)
    | None =>
        match extract_shipment_data E body w0 with
        | (Ok (o, p), w1) =>
            match Get (as_json p) "customer_name" with
            | Ok v =>
                (Ok tt,
                 evolve w1 (parsing_logs w1) (shipment_orders w1)
                   [Toast "Success!" (ExtractedShipmentDataFor v)])
            | Throw e => (Throw e, w1)
            end
        | (Throw e, w1) =>
            (Throw (Error "Edge Function returned a non-2xx status code"), w1)
        end
    end.
Proof.
  intros body w0. unfold extractDataFromFile.
  unfold mbind at 1 2. unfold M_bind. fold body.
  rewrite (functions_invoke_extract E body w). fold w0.
  destruct (functions_invoke_error E body) as [m|]; [reflexivity|].
  destruct (extract_shipment_data E body w0) as [[[o p]|e] w1];
    cbn -[Get as_json].
  - unfold lift, mbind, M_bind.
    destruct (Get (as_json p) "customer_name"); reflexivity.
  - reflexivity.
Qed.

(** What a submission leaves: the calls of the edge function framed by
    the invocation and one toast; a 'Success!' toast exactly when a
    shipment order was persisted. *)
Lemma submit_and_report E fileContent fileName fileUrl failTitle fallback w :
  let body := mk_request_body fileContent fileName (or_null fileUrl) in
  let r := try_catch
             (extractDataFromFile E fileContent fileName fileUrl
                ≫= report_result)
             (fun error =>
                record_call (Toast failTitle (Text (message_or error fallback))))
             w in
  exists logs orders evs title descr,
    r = (Ok tt,
         mk_world logs orders (shipment_files w)
           (calls w ++ FunctionsInvoke "extract-shipment-data" body
                       :: evs ++ [Toast title descr])) /\
    count is_storage_upload evs = 0 /\
    count is_invoke evs = 0 /\
    count is_toast evs = 0 /\
    (forall l, logs !! attempt_id w = Some l ->
               file_name l = fileName /\ file_url l = or_null fileUrl) /\
    ((title = "Success!" /\
      exists o, orders = <[shipment_id w := o]> (shipment_orders w)) \/
     (title = failTitle /\
      (descr = Text "Edge Function returned a non-2xx status code" \/
       exists m, functions_invoke_error E body = Some m /\ descr = Text m) /\
      orders = shipment_orders w)).
Proof.
  intros body r. subst r. unfold try_catch.
  rewrite (submit_outcome E fileContent fileName fileUrl w). fold body.
  set (w0 := evolve w (parsing_logs w) (shipment_orders w)
               [FunctionsInvoke "extract-shipment-data" body]).
  destruct (functions_invoke_error E body) as [m0|] eqn:Hinvoke.
  { unfold record_call, evolve, w0; cbn. rewrite <- !app_assoc. cbn.
    exists (parsing_logs w), (shipment_orders w), [].
    do 2 eexists. split; [reflexivity|]. repeat (split; [reflexivity|]).
    split; [|right; split; [reflexivity|]; split; [right; eauto | reflexivity]].
    intros l Hl. rewrite attempt_id_fresh in Hl. discriminate. }
  assert (forall u, file_name (attempt_after E body w0 u) = fileName /\
                    file_url (attempt_after E body w0 u) = or_null fileUrl)
    as Hafter.
  { intros u. unfold attempt_after.
    now destruct (parsing_logs_update_error E (attempt_id w0) u). }
  assert (forall (logs : gmap nat parsing_log) x l,
            <[attempt_id w := x]> logs !! attempt_id w = Some l ->
            file_name x = fileName /\ file_url x = or_null fileUrl ->
            file_name l = fileName /\ file_url l = or_null fileUrl) as Hrow.
  { intros logs x l Hl Hx. rewrite lookup_insert_eq in Hl.
    injection Hl as <-. exact Hx. }
  destruct (extract_exits E body w0)
    as [e|e|e m d|m p row Hreq Hrow' Hins|p row Hreq Hrow' Hins].
  5: { destruct (validated_payload_as_json p Hreq) as [v Hv].
       rewrite Hv. unfold evolve, w0; cbn -[as_json]. rewrite <- !app_assoc.
       cbn -[as_json].
       eexists _, _,
         [InsertParsingLog (attempt_row body);
          Fetch (completion_request fileContent);
          InsertShipmentOrder row;
          UpdateParsingLog (attempt_id w)
            (mk_parsing_log_update success None p)], _, _.
       split; [reflexivity|].
       repeat (split; [reflexivity|]).
       split; [intros l Hl; eapply Hrow; [exact Hl|apply Hafter]|].
       left. split; [reflexivity|]. eexists. reflexivity. }
  all: unfold record_call, evolve, w0; cbn -[as_json];
    rewrite <- !app_assoc; cbn -[as_json].
  - exists (parsing_logs w), (shipment_orders w),
      [InsertParsingLog (attempt_row body)].
    do 2 eexists. split; [reflexivity|]. repeat (split; [reflexivity|]).
    split; [|right; split; [reflexivity|]; split; [now left | reflexivity]].
    intros l Hl. rewrite attempt_id_fresh in Hl. discriminate.
  - eexists _, _,
      [InsertParsingLog (attempt_row body);
       Fetch (completion_request fileContent)], _, _.
    split; [reflexivity|]. repeat (split; [reflexivity|]).
    split; [|right; split; [reflexivity|]; split; [now left | reflexivity]].
    intros l Hl; eapply Hrow; [exact Hl|split; reflexivity].
  - eexists _, _,
      [InsertParsingLog (attempt_row body);
       Fetch (completion_request fileContent);
       UpdateParsingLog (attempt_id w)
         (mk_parsing_log_update failed (Some m) d)], _, _.
    split; [reflexivity|]. repeat (split; [reflexivity|]).
    split; [|right; split; [reflexivity|]; split; [now left | reflexivity]].
    intros l Hl; eapply Hrow; [exact Hl|apply Hafter].
  - eexists _, _,
      [InsertParsingLog (attempt_row body);
       Fetch (completion_request fileContent);
       InsertShipmentOrder row;
       UpdateParsingLog (attempt_id w)
         (mk_parsing_log_update failed (Some m) p)], _, _.
    split; [reflexivity|]. repeat (split; [reflexivity|]).
    split; [|right; split; [reflexivity|]; split; [now left | reflexivity]].
    intros l Hl; eapply Hrow; [exact Hl|apply Hafter].
Qed.

(** C9, as amended: for a pasted text that is not blank (not empty
    once trimmed), nothing is written to the file store, and
    [extract-shipment-data] is invoked, once, with the text, the file
    name [email-<Date.now()>.txt] and file reference [null]; the attempt
    the edge function creates carries that name and no reference.  A
    blank text is not submitted: the handler only shows a toast (and
    the button that calls it is disabled). *)
Theorem pasted_email_is_submitted_without_file E emailContent w :
  (String_trim E emailContent <> "" -> email_is_submitted E emailContent w) /\
  (String_trim E emailContent = "" ->
   handleEmailExtraction E emailContent w =
     (Ok tt,
      evolve w (parsing_logs w) (shipment_orders w)
        [Toast "Error" (Text "Please enter email content")])).
Proof.
  split.
  - intros Hblank. unfold email_is_submitted. cbv zeta.
    unfold handleEmailExtraction.
    destruct (String.eqb_spec (String_trim E emailContent) "")
      as [Heq|_]; [contradiction|].
    destruct (submit_and_report E emailContent (email_file_name E) None
                "Processing Failed" "Failed to process email content" w)
      as (logs & orders & evs & title & descr & Hrun & Hup & Hinv & _ & Hrow & _).
    cbv zeta in Hrun.
    match goal with
    | |- context [try_catch ?m ?h w] =>
        change (try_catch m h w)
          with (try_catch
                  (extractDataFromFile E emailContent (email_file_name E) None
                     ≫= report_result)
                  (fun error =>
                     record_call
                       (Toast "Processing Failed"
                          (Text (message_or error
                                   "Failed to process email content"))))
                  w)
    end.
    rewrite Hrun. cbn [fst snd shipment_files parsing_logs].
    assert (calls_since w
              (mk_world logs orders (shipment_files w)
                 (calls w ++
                    FunctionsInvoke "extract-shipment-data"
                      (mk_request_body emailContent (email_file_name E)
                         (or_null None))
                    :: evs ++ [Toast title descr]))
            = FunctionsInvoke "extract-shipment-data"
                (mk_request_body emailContent (email_file_name E) None)
                :: (evs ++ [Toast title descr])) as Hcalls.
    { unfold calls_since; cbn. rewrite drop_app_length. reflexivity. }
    rewrite Hcalls.
    split.
    { change (FunctionsInvoke "extract-shipment-data"
                (mk_request_body emailContent (email_file_name E) None)
                :: (evs ++ [Toast title descr]))
        with (([FunctionsInvoke "extract-shipment-data"
                  (mk_request_body emailContent (email_file_name E) None)]
                 ++ evs ++ [Toast title descr])%list).
      rewrite !count_app, Hup. reflexivity. }
    split; [reflexivity|].
    split.
    { eexists. split; [reflexivity|]. rewrite count_app, Hinv. reflexivity. }
    intros l Hl. apply (Hrow l Hl).
  - intros Hblank. unfold handleEmailExtraction. rewrite Hblank.
    reflexivity.
Qed.

Lemma pasted_email_is_submitted_without_file_witness :
  email_is_submitted
    (Scenario.answering 200 Scenario.text_A None None)
    "Ship to Jane Doe, 12 Oak St" empty_world.
Proof.
  refine (proj1 (pasted_email_is_submitted_without_file
    (Scenario.answering 200 Scenario.text_A None None)
    "Ship to Jane Doe, 12 Oak St" empty_world) _).
  vm_compute. discriminate.
Defined.

(** C9 as the specification states it fails on a blank text: the
    handler returns before it makes up a file name, and the edge
    function is not invoked. *)
Lemma blank_email_is_not_submitted :
  ~ email_is_submitted
      (Scenario.answering 200 Scenario.text_A None None) "   " empty_world.
Proof.
  intros (_ & _ & (evs & Hcalls & _) & _).
  vm_compute in Hcalls. discriminate Hcalls.
Qed.

(** ** Further properties of the edge function *)

Lemma exit_calls E b w r :
  exit E b w r ->
  exists evs, calls r.2 = (calls w ++ InsertParsingLog (attempt_row b) :: evs)%list.
Proof. intros []; cbn; eauto. Qed.

(** X1: A request leaves the world as it was exactly when it is a CORS
    preflight ([OPTIONS]) or reading its body throws ([req.json()]
    rejects, or its result cannot be destructured); every other request
    issues, first of all, the insert of the attempt. *)
Theorem serve_without_effect E req w :
  ((serve E req w).2 = w <->
   (String.eqb (method req) "OPTIONS" = true \/ exists e, json req = Throw e)) /\
  (forall b,
     String.eqb (method req) "OPTIONS" = false -> json req = Ok b ->
     exists evs,
       calls_since w (serve E req w).2
         = InsertParsingLog (attempt_row b) :: evs).
Proof.
  assert (forall b,
            String.eqb (method req) "OPTIONS" = false -> json req = Ok b ->
            exists evs,
              calls (serve E req w).2
                = (calls w ++ InsertParsingLog (attempt_row b) :: evs)%list)
    as Hcalls.
  { intros b Hm Hj. unfold serve. rewrite Hm, Hj.
    unfold mbind, M_bind, lift.
    destruct (exit_calls E b w _ (extract_exits E b w)) as [evs Hevs].
    exists evs.
    destruct (extract_shipment_data E b w) as [[[o p]|e] w']; exact Hevs. }
  split.
  - destruct (String.eqb (method req) "OPTIONS") eqn:Hm.
    { unfold serve. rewrite Hm. cbn. split; auto. }
    destruct (json req) as [b|e] eqn:Hj.
    2: { unfold serve. rewrite Hm, Hj. cbn. split; eauto. }
    split.
    + intros Heq. exfalso.
      destruct (Hcalls b eq_refl eq_refl) as [evs Hevs].
      rewrite Heq in Hevs. apply (f_equal length) in Hevs.
      rewrite length_app in Hevs. cbn in Hevs. lia.
    + intros [Habs | [e Habs]]; discriminate.
  - intros b Hm Hj. destruct (Hcalls b Hm Hj) as [evs Hevs].
    exists evs. unfold calls_since. rewrite Hevs. apply drop_app_length.
Qed.

(** X2: The caller is told of a success exactly when a shipment order was
    persisted: a request that is not a preflight is answered either with
    status 200 and the new row of [shipment_orders], or with status 500
    and an error message, and then [shipment_orders] is as it was. *)
Theorem serve_answer E req w :
  String.eqb (method req) "OPTIONS" = false ->
  let r := serve E req w in
  (resp_status r.1 = 200%N /\
   exists o p,
     resp_body r.1 = Some (SuccessBody o p) /\
     shipment_orders w !! order_id o = None /\
     shipment_orders r.2 = <[order_id o := o]> (shipment_orders w)) \/
  (resp_status r.1 = 500%N /\
   (exists msg, resp_body r.1 = Some (ErrorBody msg)) /\
   shipment_orders r.2 = shipment_orders w).
Proof.
  intros Hm r. subst r. unfold serve. rewrite Hm.
  unfold mbind, M_bind, lift. destruct (json req) as [b|e].
  2: { right. cbn. eauto. }
  destruct (extract_exits E b w)
    as [e|e|e m d|m p row Hreq Hrow Hins|p row Hreq Hrow Hins];
    cbn -[as_json]; try (right; eauto; fail).
  left. split; [reflexivity|]. do 2 eexists. split; [reflexivity|].
  split; [apply shipment_id_fresh | reflexivity].
Qed.

Lemma serve_answer_witness :
  resp_status
    (serve (Scenario.answering 200 Scenario.text_C None None)
       (mk_http_request "POST" (Ok Scenario.body_A)) empty_world).1 = 500%N.
Proof.
  destruct (serve_answer (Scenario.answering 200 Scenario.text_C None None)
              (mk_http_request "POST" (Ok Scenario.body_A)) empty_world
              eq_refl) as [[Hs _] | [Hs _]].
  - vm_compute in Hs. discriminate Hs.
  - exact Hs.
Defined.

(** X3: The calls of one run of the handler, in order, none of them
    issued twice: the insert of the attempt; then the extraction call;
    then either one update of the attempt to [failed], or, for a payload
    that passed the validation, the insert of the row built from it
    followed by one update of the attempt, to [success] or to [failed],
    with that payload as snapshot. *)
Theorem extract_call_sequence E b w :
  let evs := calls_since w (extract_shipment_data E b w).2 in
  let request := completion_request (fileContent b) in
  evs = [InsertParsingLog (attempt_row b)] \/
  evs = [InsertParsingLog (attempt_row b); Fetch request] \/
  (exists m d,
     evs = [InsertParsingLog (attempt_row b); Fetch request;
            UpdateParsingLog (attempt_id w)
              (mk_parsing_log_update failed (Some m) d)]) \/
  (exists p row u,
     required_fields_missing p = Ok false /\
     shipment_row p b = Ok row /\
     (u = mk_parsing_log_update success None p \/
      exists m, u = mk_parsing_log_update failed (Some m) p) /\
     evs = [InsertParsingLog (attempt_row b); Fetch request;
            InsertShipmentOrder row;
            UpdateParsingLog (attempt_id w) u]).
Proof.
  cbn zeta.
  destruct (extract_exits E b w)
    as [e|e|e m d|m p row Hreq Hrow Hins|p row Hreq Hrow Hins];
    cbn [snd]; rewrite calls_since_evolve; eauto 6.
  - do 3 right. exists p, row. eexists. eauto 6.
  - do 3 right. exists p, row. eexists. eauto 6.
Qed.

(** X4: A run of the handler never touches a row that is already there: the
    rows of [parsing_logs] and [shipment_orders] stay as they are (an
    attempt that was resolved is not changed by later requests), the
    bucket is not written, and the calls issued before remain. *)
Theorem serve_keeps_rows E req w :
  let w' := (serve E req w).2 in
  (forall a l, parsing_logs w !! a = Some l -> parsing_logs w' !! a = Some l) /\
  (forall i o, shipment_orders w !! i = Some o ->
               shipment_orders w' !! i = Some o) /\
  shipment_files w' = shipment_files w /\
  take (length (calls w)) (calls w') = calls w.
Proof.
  cbn zeta. destruct (serve_world E req w) as [-> | [b ->]].
  { repeat split; auto. apply firstn_all. }
  assert (forall (logs : gmap nat parsing_log) a l x,
            logs !! attempt_id w = None -> logs !! a = Some l ->
            <[attempt_id w := x]> logs !! a = Some l) as Hlogs.
  { intros logs a l x Hnone Hl. rewrite lookup_insert_ne; [exact Hl|].
    intros <-. congruence. }
  assert (forall evs, take (length (calls w)) (calls w ++ evs) = calls w)
    as Hcalls by (intros; apply take_app_length).
  pose proof (attempt_id_fresh w) as Hfresh.
  destruct (extract_exits E b w); cbn [snd]; unfold evolve; cbn;
    repeat split; eauto.
  intros i o Ho. rewrite lookup_insert_ne; [exact Ho|].
  intros <-. rewrite shipment_id_fresh in Ho. discriminate.
Qed.

(** X6: When the upstream text parses to the JSON literal [null], reading
    [extractedData.customer_name] throws: the caller gets status 500 with
    the TypeError's message, the attempt is not updated and stays
    [processing], and no shipment order is inserted. *)
Theorem null_payload_is_not_recorded E b w extractedText :
  attempt_created E b ->
  upstream_yields E b extractedText ->
  JSON_parse E extractedText = Some VNull ->
  let r := extract_shipment_data E b w in
  r.1 = Throw (TypeError
                 "Cannot read properties of null (reading 'customer_name')") /\
  parsing_logs r.2 !! attempt_id w =
    Some (mk_parsing_log (attempt_id w) (fileName b) (fileUrl b) processing
            None None) /\
  count (is_update_of (attempt_id w)) (calls_since w r.2) = 0 /\
  count is_shipment_insert (calls_since w r.2) = 0 /\
  shipment_orders r.2 = shipment_orders w /\
  forall meth, String.eqb meth "OPTIONS" = false ->
    (serve E (mk_http_request meth (Ok b)) w).1 =
      mk_http_response 500 json_headers
        (Some (ErrorBody
                 "Cannot read properties of null (reading 'customer_name')")).
Proof.
  intros Hlog (st & Hfetch & Hok) Hparse r. subst r.
  pose proof (path_property_read_throws E b w st extractedText VNull _
                Hlog Hfetch Hok Hparse eq_refl) as Hpath.
  rewrite Hpath.
  split; [reflexivity|]. split; [apply lookup_attempt|].
  split; [count_calls|]. split; [count_calls|]. split; [reflexivity|].
  intros meth Hmeth. now rewrite (serve_throws E meth b w _ _ Hmeth Hpath).
Qed.

Lemma null_payload_is_not_recorded_witness :
  (extract_shipment_data
     (Scenario.answering 200 Scenario.text_null None None)
     Scenario.body_A empty_world).1
  = Throw (TypeError
             "Cannot read properties of null (reading 'customer_name')").
Proof.
  refine (proj1 (null_payload_is_not_recorded
    (Scenario.answering 200 Scenario.text_null None None)
    Scenario.body_A empty_world Scenario.text_null _ _ _)).
  - reflexivity.
  - exists 200%N. split; reflexivity.
  - reflexivity.
Defined.

(** X7: When the extraction call itself fails (the [fetch] promise rejects)
    or its body cannot be read as a completion, the handler rethrows that
    error to the caller; the attempt is not updated and stays
    [processing]. *)
Theorem fetch_failure_is_not_recorded E b w e :
  attempt_created E b ->
  (openai E (completion_request (fileContent b)) = FetchRejected e \/
   exists st,
     openai E (completion_request (fileContent b))
       = FetchResponse st (BodyUnreadable e) /\
     response_ok st = true) ->
  let r := extract_shipment_data E b w in
  r.1 = Throw e /\
  parsing_logs r.2 !! attempt_id w =
    Some (mk_parsing_log (attempt_id w) (fileName b) (fileUrl b) processing
            None None) /\
  count (is_update_of (attempt_id w)) (calls_since w r.2) = 0 /\
  shipment_orders r.2 = shipment_orders w.
Proof.
  intros Hlog [Hfetch | (st & Hfetch & Hok)] r; subst r.
  - rewrite (path_fetch_rejected E b w e Hlog Hfetch).
    split; [reflexivity|]. split; [apply lookup_attempt|].
    split; [count_calls | reflexivity].
  - rewrite (path_body_unreadable E b w st e Hlog Hfetch Hok).
    split; [reflexivity|]. split; [apply lookup_attempt|].
    split; [count_calls | reflexivity].
Qed.

Lemma fetch_failure_is_not_recorded_witness :
  (extract_shipment_data Cases.offline Scenario.body_A empty_world).1
  = Throw (TypeError "error sending request").
Proof.
  refine (proj1 (fetch_failure_is_not_recorded Cases.offline Scenario.body_A
                   empty_world (TypeError "error sending request") _ _)).
  - reflexivity.
  - left. reflexivity.
Defined.

Lemma readable_required_fields p :
  p <> VNull -> p <> VUndefined ->
  exists r, required_fields_missing p = Ok r.
Proof.
  intros Hnull Hundef.
  apply (Get_required_fields_missing p "customer_name"
           (match Get p "customer_name" with Ok v => v | Throw _ => VUndefined end)).
  destruct p; cbn; congruence.
Qed.

(** What the attempt holds after the one update [u] of a run. *)
Lemma updated_attempt E b w u orders evs :
  let w' := evolve w (<[attempt_id w := attempt_after E b w u]> (parsing_logs w))
              orders evs in
  (update_applied E w u ->
   exists l,
     parsing_logs w' !! attempt_id w = Some l /\
     status l = upd_status u /\
     extracted_data l = Some (as_json (upd_extracted_data u))) /\
  (~ update_applied E w u ->
   parsing_logs w' !! attempt_id w = Some (new_attempt b w)).
Proof.
  cbn zeta. rewrite lookup_attempt.
  destruct (attempt_after_status E b w u) as [[Ha ->] | [Hr ->]].
  - split; [|contradiction]. intros _. eexists. split; [reflexivity|].
    split; reflexivity.
  - split; [contradiction | auto].
Qed.

(** X8: Once the extraction call has answered with a success status and a
    text other than the JSON literal [null], the handler issues exactly
    one update of the attempt, to [success] or to [failed] and with a
    snapshot.  When the store applies it the attempt ends in that
    status with the snapshot as JSON; when the store rejects it the
    attempt stays as it was inserted, [processing]. *)
Theorem answered_attempt_is_resolved E b w extractedText :
  attempt_created E b ->
  upstream_yields E b extractedText ->
  JSON_parse E extractedText <> Some VNull ->
  JSON_parse E extractedText <> Some VUndefined ->
  let r := extract_shipment_data E b w in
  exists u,
    In (UpdateParsingLog (attempt_id w) u) (calls_since w r.2) /\
    count (is_update_of (attempt_id w)) (calls_since w r.2) = 1 /\
    terminal (upd_status u) = true /\
    (update_applied E w u ->
     exists l,
       parsing_logs r.2 !! attempt_id w = Some l /\
       status l = upd_status u /\
       extracted_data l = Some (as_json (upd_extracted_data u))) /\
    (~ update_applied E w u ->
     parsing_logs r.2 !! attempt_id w = Some (new_attempt b w)).
Proof.
  intros Hlog (st & Hfetch & Hok) Hnull Hundef r. subst r.
  destruct (JSON_parse E extractedText) as [p|] eqn:Hparse.
  2: { rewrite (path_invalid_format E b w st extractedText
                  Hlog Hfetch Hok Hparse).
       eexists. cbn [snd]. rewrite calls_since_evolve.
       split; [cbn; auto|]. split; [count_calls|]. split; [reflexivity|].
       apply updated_attempt. }
  destruct (readable_required_fields p) as [[|] Hreq]; [congruence..| |].
  - rewrite (path_missing_fields E b w st extractedText p
               Hlog Hfetch Hok Hparse Hreq).
    eexists. cbn [snd]. rewrite calls_since_evolve.
    split; [cbn; auto|]. split; [count_calls|]. split; [reflexivity|].
    apply updated_attempt.
  - destruct (validated_row p b Hreq) as [row Hrow].
    destruct (shipment_orders_insert_error E row) as [m|] eqn:Hins.
    + rewrite (path_store_error E b w st extractedText p row m
                 Hlog Hfetch Hok Hparse Hreq Hrow Hins).
      eexists. cbn [snd]. rewrite calls_since_evolve.
      split; [cbn; auto|]. split; [count_calls|]. split; [reflexivity|].
      apply updated_attempt.
    + rewrite (path_success E b w st extractedText p row
                 Hlog Hfetch Hok Hparse Hreq Hrow Hins).
      eexists. cbn [snd]. rewrite calls_since_evolve.
      split; [cbn; auto|]. split; [count_calls|]. split; [reflexivity|].
      apply updated_attempt.
Qed.

Lemma answered_attempt_is_resolved_witness :
  exists u,
    In (UpdateParsingLog (attempt_id empty_world) u)
      (calls_since empty_world
         (extract_shipment_data
            (Scenario.answering 200 Scenario.text_A None (Some "duplicate key"))
            Scenario.body_A empty_world).2) /\
    terminal (upd_status u) = true.
Proof.
  destruct (answered_attempt_is_resolved
    (Scenario.answering 200 Scenario.text_A None (Some "duplicate key"))
    Scenario.body_A empty_world Scenario.text_A)
    as (u & Hin & _ & Ht & _).
  - reflexivity.
  - exists 200%N. split; reflexivity.
  - discriminate.
  - discriminate.
  - exists u. split; assumption.
Defined.

(** ** What the tables hold *)

Lemma text_column_truthy E v :
  ToBoolean v = true -> ToBoolean (text_column E v) = true.
Proof. destruct v as [| |?|?|?|?|?]; cbn; auto. Qed.

(** X10: Every shipment order the edge function has persisted is stored under
    its own identifier, has a truthy [customer_name] and [address], is
    marked as parsed by AI and is 'pending'. *)
Theorem reachable_orders_are_validated w :
  reachable w ->
  forall i o, shipment_orders w !! i = Some o ->
              order_id o = i /\ validated_order o.
Proof.
  induction 1 as [|E req w Hreach IH]; intros i o Ho.
  { cbn in Ho. rewrite lookup_empty in Ho. discriminate. }
  destruct (serve_world E req w) as [Heq | [b Heq]]; rewrite Heq in Ho;
    [now apply IH|].
  destruct (extract_exits E b w)
    as [e|e|e m d|m p row Hreq Hrow Hins|p row Hreq Hrow Hins];
    cbn in Ho; try (now apply IH).
  destruct (decide (i = shipment_id w)) as [->|Hne].
  - rewrite lookup_insert_eq in Ho. injection Ho as <-.
    split; [reflexivity|]. unfold validated_order.
    cbn [order_columns typed_row json_row customer_name address parsed_by_ai
         order_status].
    destruct (accepted_payload_as_json E p b row Hreq Hrow Hins)
      as (_ & Hn & Ha).
    destruct (shipment_row_columns p b row Hrow)
      as (_ & _ & _ & _ & _ & _ & _ & _ & Hai & Hst).
    split; [now apply text_column_truthy|].
    split; [now apply text_column_truthy|]. auto.
  - rewrite lookup_insert_ne in Ho by congruence. now apply IH.
Qed.

Lemma reachable_orders_are_validated_witness :
  order_id Cases.order_A = 0 /\ validated_order Cases.order_A.
Proof.
  apply (reachable_orders_are_validated
           (serve (Scenario.answering 200 Scenario.text_A None None)
              (mk_http_request "POST" (Ok Scenario.body_A)) empty_world).2).
  - apply reachable_serve, reachable_empty.
  - reflexivity.
Defined.

(** X11: Every attempt the edge function has written is stored under its own
    identifier and holds, by status: nothing but the file name and
    reference while [processing]; an error message and a snapshot when
    [failed]; no error message and a validated payload when [success]. *)
Theorem reachable_attempts_have_shape w :
  reachable w ->
  forall a l, parsing_logs w !! a = Some l ->
              log_id l = a /\ attempt_shape l.
Proof.
  induction 1 as [|E req w Hreach IH]; intros a l Hl.
  { cbn in Hl. rewrite lookup_empty in Hl. discriminate. }
  destruct (serve_world E req w) as [Heq | [b Heq]]; rewrite Heq in Hl;
    [now apply IH|].
  assert (forall u,
            (upd_status u = failed -> upd_error_message u <> None) ->
            (upd_status u = success ->
             upd_error_message u = None /\
             succeeded (resolved_attempt b w u)) ->
            upd_status u <> processing ->
            log_id (attempt_after E b w u) = attempt_id w /\
            attempt_shape (attempt_after E b w u)) as Hshape.
  { intros u Hf Hs Hp.
    destruct (attempt_after_status E b w u) as [[_ ->] | [_ ->]];
      (split; [reflexivity|]); unfold attempt_shape; cbn; [|auto].
    destruct (upd_status u) eqn:Hst; [congruence| |].
    - destruct (Hs eq_refl) as [-> Hsucc]. split; [reflexivity|].
      destruct Hsucc as [_ Hsucc]. split; [exact Hst | exact Hsucc].
    - specialize (Hf eq_refl).
      destruct (upd_error_message u); [split; discriminate | congruence]. }
  destruct (extract_exits E b w)
    as [e|e|e m d|m p row Hreq Hrow Hins|p row Hreq Hrow Hins];
    cbn in Hl; try (now apply IH);
    (destruct (decide (a = attempt_id w)) as [->|Hne];
     [rewrite lookup_insert_eq in Hl; injection Hl as <-
     |rewrite lookup_insert_ne in Hl by congruence; now apply IH]).
  - split; [reflexivity|]. unfold attempt_shape; cbn; auto.
  - apply Hshape; cbn; try discriminate.
  - apply Hshape; cbn; try discriminate.
  - apply Hshape; cbn; try discriminate.
    intros _. split; [reflexivity|].
    exact (succeeded_resolved E b w p row Hreq Hrow Hins).
Qed.

Lemma reachable_attempts_have_shape_witness :
  log_id Cases.attempt_C = 0 /\ attempt_shape Cases.attempt_C.
Proof.
  apply (reachable_attempts_have_shape
           (serve (Scenario.answering 200 Scenario.text_C None None)
              (mk_http_request "POST" (Ok Scenario.body_A)) empty_world).2).
  - apply reachable_serve, reachable_empty.
  - reflexivity.
Defined.

(** ** Further properties of the [FileUpload] component *)

Lemma try_catch_bind_ok {A B} (m : M A) (f : A -> M B) h w a w1 :
  m w = (Ok a, w1) ->
  try_catch (m ≫= f) h w = try_catch (f a) h w1.
Proof. intros Hm. unfold try_catch, mbind, M_bind. now rewrite Hm. Qed.

Lemma try_catch_bind_throw {A B} (m : M A) (f : A -> M B) h w e w1 :
  m w = (Throw e, w1) ->
  try_catch (m ≫= f) h w = h e w1.
Proof. intros Hm. unfold try_catch, mbind, M_bind. now rewrite Hm. Qed.

Lemma uploadFile_rejected E file w m :
  storage_upload_error E (upload_key E file) = Some m ->
  uploadFile E file w =
    (Throw (Error m),
     evolve w (parsing_logs w) (shipment_orders w)
       [StorageUpload (upload_key E file)]).
Proof.
  intros Herr. unfold uploadFile, storage_upload, record_call, state, throw.
  unfold mbind, M_bind. fold (upload_key E file). cbn [fst snd].
  rewrite Herr. reflexivity.
Qed.

Lemma uploadFile_stored E file w :
  storage_upload_error E (upload_key E file) = None ->
  uploadFile E file w =
    (Ok (upload_key E file, storage_public_url E (upload_key E file), name file),
     mk_world (parsing_logs w) (shipment_orders w)
       (<[upload_key E file := bytes file]> (shipment_files w))
       (calls w ++ [StorageUpload (upload_key E file)])).
Proof.
  intros Herr. unfold uploadFile, storage_upload, record_call, state.
  unfold mbind, M_bind. fold (upload_key E file). cbn [fst snd].
  rewrite Herr. reflexivity.
Qed.

(** X12: When the file store rejects the upload, [handleFileUpload] stops
    there: the edge function is not invoked, no table and no file is
    written, and the toast 'Upload Failed' shows the store's message. *)
Theorem rejected_upload_stops E file w m :
  storage_upload_error E (upload_key E file) = Some m ->
  handleFileUpload E file w =
    (Ok tt,
     mk_world (parsing_logs w) (shipment_orders w) (shipment_files w)
       (calls w ++ [StorageUpload (upload_key E file);
                    Toast "Upload Failed" (Text m)])).
Proof.
  intros Herr. unfold handleFileUpload.
  rewrite (try_catch_bind_throw _ _ _ w _ _ (uploadFile_rejected E file w m Herr)).
  unfold record_call, evolve; cbn. now rewrite <- app_assoc.
Qed.

Lemma rejected_upload_stops_witness :
  (handleFileUpload Cases.full_bucket Cases.text_file empty_world).2
  = mk_world ∅ ∅ ∅
      [StorageUpload "1756693216000-order.txt";
       Toast "Upload Failed" (Text "The resource already exists")].
Proof.
  rewrite (rejected_upload_stops Cases.full_bucket Cases.text_file
             empty_world "The resource already exists" eq_refl).
  reflexivity.
Defined.

(** X13: The file is stored before it is read: when reading it as text
    fails, the bytes stay in the bucket under the upload key, the edge
    function is not invoked and no table is written; the toast
    'Upload Failed' says 'Failed to read file'. *)
Theorem unreadable_file_stays_in_bucket E file w :
  storage_upload_error E (upload_key E file) = None ->
  text file = None ->
  handleFileUpload E file w =
    (Ok tt,
     mk_world (parsing_logs w) (shipment_orders w)
       (<[upload_key E file := bytes file]> (shipment_files w))
       (calls w ++ [StorageUpload (upload_key E file);
                    Toast "Upload Failed" (Text "Failed to read file")])).
Proof.
  intros Herr Htext. unfold handleFileUpload.
  rewrite (try_catch_bind_ok _ _ _ w _ _ (uploadFile_stored E file w Herr)).
  unfold readFileContent. rewrite Htext.
  unfold try_catch, mbind, M_bind, throw, record_call; cbn.
  now rewrite <- app_assoc.
Qed.

Lemma unreadable_file_stays_in_bucket_witness :
  shipment_files
    (handleFileUpload (Scenario.answering 200 Scenario.text_A None None)
       Cases.unreadable_file empty_world).2
    !! "1756693216000-order.pdf" = Some "%PDF".
Proof.
  rewrite (unreadable_file_stays_in_bucket
             (Scenario.answering 200 Scenario.text_A None None)
             Cases.unreadable_file empty_world eq_refl eq_refl).
  reflexivity.
Defined.

(** [handleFileUpload] once the file was stored and read. *)
Lemma handleFileUpload_submits E file w content :
  storage_upload_error E (upload_key E file) = None ->
  text file = Some content ->
  handleFileUpload E file w =
    try_catch
      (extractDataFromFile E content (name file)
         (Some (storage_public_url E (upload_key E file)))
         ≫= report_result)
      (fun error =>
         record_call
           (Toast "Upload Failed"
              (Text (message_or error "Failed to process file"))))
      (mk_world (parsing_logs w) (shipment_orders w)
         (<[upload_key E file := bytes file]> (shipment_files w))
         (calls w ++ [StorageUpload (upload_key E file)])).
Proof.
  intros Herr Htext. unfold handleFileUpload.
  rewrite (try_catch_bind_ok _ _ _ w _ _ (uploadFile_stored E file w Herr)).
  set (w1 := mk_world _ _ _ _).
  assert (readFileContent file w1 = (Ok content, w1)) as Hread
    by (unfold readFileContent; now rewrite Htext).
  rewrite (try_catch_bind_ok _ _ _ w1 _ _ Hread). reflexivity.
Qed.

(** X14: A file that was stored and read is submitted once: the bytes are in
    the bucket under [<Date.now()>-<name>], and the edge function is
    invoked with the text, the file's own name (not the key) and the
    public URL of the key (or [null] if that URL is empty); the attempt
    it creates carries that name and URL.  One toast ends the run, and it
    is 'Success!' exactly when a shipment order was persisted. *)
Theorem uploaded_file_is_submitted E file w content :
  storage_upload_error E (upload_key E file) = None ->
  text file = Some content ->
  let url := or_null (Some (storage_public_url E (upload_key E file))) in
  exists logs orders evs title descr,
    handleFileUpload E file w =
      (Ok tt,
       mk_world logs orders
         (<[upload_key E file := bytes file]> (shipment_files w))
         (calls w ++
            StorageUpload (upload_key E file)
            :: FunctionsInvoke "extract-shipment-data"
                 (mk_request_body content (name file) url)
            :: evs ++ [Toast title descr])) /\
    count is_storage_upload evs = 0 /\
    count is_invoke evs = 0 /\
    count is_toast evs = 0 /\
    (forall l, logs !! attempt_id w = Some l ->
               file_name l = name file /\ file_url l = url) /\
    ((title = "Success!" /\
      exists o, orders = <[shipment_id w := o]> (shipment_orders w)) \/
     (title = "Upload Failed" /\ orders = shipment_orders w)).
Proof.
  intros Herr Htext url.
  rewrite (handleFileUpload_submits E file w content Herr Htext).
  set (w1 := mk_world _ _ _ _).
  destruct (submit_and_report E content (name file)
              (Some (storage_public_url E (upload_key E file)))
              "Upload Failed" "Failed to process file" w1)
    as (logs & orders & evs & title & descr & Hrun & Hup & Hinv & Ht & Hrow & Hout).
  cbv zeta in Hrun. rewrite Hrun.
  exists logs, orders, evs, title, descr.
  split; [unfold w1; cbn; now rewrite <- app_assoc|].
  repeat (split; [assumption|]).
  destruct Hout as [Hs | (Hf & _ & Ho)]; [left; exact Hs | right; auto].
Qed.

Lemma uploaded_file_is_submitted_witness :
  exists logs orders evs title descr,
    handleFileUpload (Scenario.answering 200 Scenario.text_A None None)
      Cases.text_file empty_world =
      (Ok tt,
       mk_world logs orders
         (<["1756693216000-order.txt" := "Ship to Jane Doe"]> ∅)
         ([] ++
            StorageUpload "1756693216000-order.txt"
            :: FunctionsInvoke "extract-shipment-data"
                 (mk_request_body "Ship to Jane Doe" "order.txt"
                    (Some "shipment-files/1756693216000-order.txt"))
            :: evs ++ [Toast title descr])).
Proof.
  destruct (uploaded_file_is_submitted
              (Scenario.answering 200 Scenario.text_A None None)
              Cases.text_file empty_world "Ship to Jane Doe" eq_refl eq_refl)
    as (logs & orders & evs & title & descr & Hrun & _).
  exists logs, orders, evs, title, descr. exact Hrun.
Defined.

(** X15: [extractDataFromFile] returns the success body of the edge function
    or throws: the client library's error for a status outside 200-299,
    or the error of an invocation that did not reach the edge function,
    and then no table is written.  It never returns a body whose
    [success] is false, so the check [if (!result.success)] of its
    callers cannot fire. *)
Theorem extractDataFromFile_result E fileContent fileName fileUrl w :
  let body := mk_request_body fileContent fileName (or_null fileUrl) in
  let r := extractDataFromFile E fileContent fileName fileUrl w in
  (functions_invoke_error E body = None /\
   ((exists o p, r.1 = Ok (Some (SuccessBody o p))) \/
    r.1 = Throw (Error "Edge Function returned a non-2xx status code"))) \/
  (exists m,
     functions_invoke_error E body = Some m /\
     r = (Throw (Error m),
          evolve w (parsing_logs w) (shipment_orders w)
            [FunctionsInvoke "extract-shipment-data" body])).
Proof.
  cbn zeta. unfold extractDataFromFile. unfold mbind, M_bind.
  rewrite functions_invoke_extract.
  destruct (functions_invoke_error E _) as [m|]; [right; eauto|].
  left. split; [reflexivity|].
  destruct (extract_shipment_data E _ _) as [[[o p]|e] w1]; cbn -[as_json];
    eauto.
Qed.

(** X16: What a pasted text leads to.  A text that is empty once trimmed
    is not submitted: the only call is the toast 'Error'.  Any other
    text is submitted once, and one toast ends the run: 'Success!'
    exactly when a shipment order was persisted; 'Processing Failed'
    otherwise, with the client library's message for a status outside
    200-299 or the error of an invocation that did not reach the edge
    function. *)
Theorem pasted_email_outcome E emailContent w :
  let body := mk_request_body emailContent (email_file_name E) None in
  let r := handleEmailExtraction E emailContent w in
  (String_trim E emailContent = "" /\
   r = (Ok tt,
        evolve w (parsing_logs w) (shipment_orders w)
          [Toast "Error" (Text "Please enter email content")])) \/
  (String_trim E emailContent <> "" /\
   exists logs orders evs title descr,
     r = (Ok tt,
          mk_world logs orders (shipment_files w)
            (calls w ++
               FunctionsInvoke "extract-shipment-data" body
               :: evs ++ [Toast title descr])) /\
     count is_invoke evs = 0 /\
     count is_toast evs = 0 /\
     ((title = "Success!" /\
       exists o, orders = <[shipment_id w := o]> (shipment_orders w)) \/
      (title = "Processing Failed" /\
       (descr = Text "Edge Function returned a non-2xx status code" \/
        exists m, functions_invoke_error E body = Some m /\ descr = Text m) /\
       orders = shipment_orders w))).
Proof.
  cbn zeta. unfold handleEmailExtraction.
  destruct (String.eqb_spec (String_trim E emailContent) "") as [Hblank|Hblank].
  - left. split; [exact Hblank | reflexivity].
  - right. split; [exact Hblank|].
    destruct (submit_and_report E emailContent (email_file_name E) None
                "Processing Failed" "Failed to process email content" w)
      as (logs & orders & evs & title & descr & Hrun & _ & Hinv & Ht & _ & Hout).
    cbv zeta in Hrun.
    match goal with
    | |- context [try_catch ?m ?h w] =>
        change (try_catch m h w)
          with (try_catch
                  (extractDataFromFile E emailContent (email_file_name E) None
                     ≫= report_result)
                  (fun error =>
                     record_call
                       (Toast "Processing Failed"
                          (Text (message_or error
                                   "Failed to process email content"))))
                  w)
    end.
    rewrite Hrun.
    exists logs, orders, evs, title, descr. auto.
Qed.

(** ** The search filter of [ShipmentTable] *)

Lemma prefix_append t s :
  String.prefix t s = true <-> exists b, s = t +:+ b.
Proof.
  revert s. induction t as [|c t IH]; intros s; cbn.
  - destruct s; split; eauto.
  - destruct s as [|c' s]; cbn.
    + split; [discriminate | intros [b Hb]; discriminate].
    + destruct (Ascii.ascii_dec c c') as [->|Hne].
      * rewrite IH. split; intros [b Hb]; exists b; [now rewrite Hb|].
        now injection Hb.
      * split; [discriminate|]. intros [b Hb]. injection Hb as Hc _.
        congruence.
Qed.

Lemma includes_occurs s t :
  ShipmentTable.includes s t = true <-> exists a b, s = a +:+ t +:+ b.
Proof.
  induction s as [|c s IH]; cbn [ShipmentTable.includes].
  - rewrite orb_false_r, prefix_append. split.
    + intros [b Hb]. exists "", b. exact Hb.
    + intros (a & b & Hab). destruct a; [eauto|discriminate].
  - rewrite orb_true_iff, prefix_append, IH. split.
    + intros [[b Hb] | (a & b & Hab)].
      * exists "", b. exact Hb.
      * exists (String c a), b. cbn. now rewrite Hab.
    + intros (a & b & Hab). destruct a as [|c' a]; cbn in Hab.
      * left. eauto.
      * right. injection Hab as _ Hab. eauto.
Qed.

Lemma append_cons c (a b : string) : String c a +:+ b = String c (a +:+ b).
Proof. reflexivity. Qed.

Lemma append_assoc (a b c : string) : (a +:+ b) +:+ c = a +:+ (b +:+ c).
Proof.
  induction a as [|x a IH]; [reflexivity|].
  rewrite !append_cons, IH. reflexivity.
Qed.

Lemma includes_trans s t u :
  ShipmentTable.includes s t = true -> ShipmentTable.includes t u = true ->
  ShipmentTable.includes s u = true.
Proof.
  rewrite !includes_occurs. intros (a & b & ->) (a' & b' & ->).
  exists (a +:+ a'), (b' +:+ b). now rewrite !append_assoc.
Qed.

Lemma includes_empty s : ShipmentTable.includes s "" = true.
Proof. apply includes_occurs. exists "", s. reflexivity. Qed.

(** X17: With an empty search box and the status filter on 'all', every
    shipment is shown, in the order received. *)
Theorem no_filter_shows_all lower shipments :
  ShipmentTable.filteredShipments lower shipments "" "all" = shipments.
Proof.
  unfold ShipmentTable.filteredShipments.
  induction shipments as [|x l IH]; [reflexivity|]. cbn [List.filter].
  assert (ShipmentTable.matchesSearch lower "" x
          && ShipmentTable.matchesStatus "all" x = true) as ->.
  { unfold ShipmentTable.matchesSearch, ShipmentTable.matchesStatus.
    cbn [ShipmentTable.toLowerCase]. now rewrite includes_empty. }
  now rewrite IH.
Qed.

(** X20: Typing more narrows the list: when the earlier term occurs, up to
    case, in the later one, the shipments shown for the later term are
    those among the ones shown before that match it. *)
Theorem longer_term_narrows lower shipments term term' statusFilter :
  ShipmentTable.includes (ShipmentTable.toLowerCase lower term')
    (ShipmentTable.toLowerCase lower term) = true ->
  ShipmentTable.filteredShipments lower shipments term' statusFilter
  = ShipmentTable.filteredShipments lower
      (ShipmentTable.filteredShipments lower shipments term statusFilter)
      term' statusFilter.
Proof.
  intros Hterm. unfold ShipmentTable.filteredShipments.
  induction shipments as [|x l IH]; [reflexivity|]. cbn [List.filter].
  destruct (ShipmentTable.matchesSearch lower term' x
            && ShipmentTable.matchesStatus statusFilter x) eqn:Hx'.
  - assert (ShipmentTable.matchesSearch lower term x
            && ShipmentTable.matchesStatus statusFilter x = true) as Hx.
    { apply andb_true_iff in Hx'. destruct Hx' as [Hs Hst].
      apply andb_true_iff. split; [|exact Hst].
      unfold ShipmentTable.matchesSearch in *.
      repeat match goal with
      | H : (_ || _)%bool = true |- _ => apply orb_true_iff in H; destruct H
      end.
      + rewrite (includes_trans _ _ _ H Hterm). reflexivity.
      + rewrite (includes_trans _ _ _ H Hterm). now rewrite orb_true_r.
      + destruct (ShipmentTable.tracking_id x) as [t|]; [|discriminate].
        apply andb_true_iff in H. destruct H as [Hne H].
        rewrite Hne, (includes_trans _ _ _ H Hterm). now rewrite !orb_true_r. }
    rewrite Hx. cbn [List.filter]. rewrite Hx'. now rewrite IH.
  - destruct (ShipmentTable.matchesSearch lower term x
              && ShipmentTable.matchesStatus statusFilter x);
      [cbn [List.filter]; rewrite Hx'|]; exact IH.
Qed.

Lemma longer_term_narrows_witness :
  ShipmentTable.filteredShipments ShipmentTable.ascii_toLowerCase
    [Cases.jane] "Jane" "all"
  = ShipmentTable.filteredShipments ShipmentTable.ascii_toLowerCase
      (ShipmentTable.filteredShipments ShipmentTable.ascii_toLowerCase
         [Cases.jane] "JA" "all") "Jane" "all".
Proof.
  apply longer_term_narrows. reflexivity.
Defined.

(** ** The edit dialog of [ShipmentTable] *)

Lemma handleSave_rejected m shipment editForm w :
  ShipmentTable.handleSave (Some m) (Some shipment) editForm w =
    (Ok tt,
     evolve w (parsing_logs w) (shipment_orders w)
       [Toast "Error" (Text "Failed to update shipment")]).
Proof. reflexivity. Qed.

Lemma handleSave_accepted shipment editForm w :
  ShipmentTable.handleSave None (Some shipment) editForm w =
    (Ok tt,
     evolve w (parsing_logs w)
       (alter (ShipmentTable.updated editForm) (ShipmentTable.id shipment)
          (shipment_orders w))
       [Toast "Success" (Text "Shipment updated successfully")]).
Proof. reflexivity. Qed.


(** X22: An edit never adds or removes a row: whatever the store answers,
    the identifiers of [shipment_orders] are the same after
    [handleSave], and [parsing_logs] and the bucket are untouched. *)
Theorem saved_edit_keeps_rows update_error editingShipment editForm w :
  let w' := (ShipmentTable.handleSave update_error editingShipment editForm w).2 in
  dom (shipment_orders w') = dom (shipment_orders w) /\
  parsing_logs w' = parsing_logs w /\
  shipment_files w' = shipment_files w.
Proof.
  cbn zeta. destruct editingShipment as [shipment|]; [|now cbn].
  destruct update_error as [m|].
  - now rewrite handleSave_rejected.
  - rewrite handleSave_accepted. cbn. now rewrite dom_alter_L.
Qed.

(** ** The tables under the whole application *)

Lemma size_alter_orders (f : shipment_order -> shipment_order) i
    (m : gmap nat shipment_order) :
  size (alter f i m) = size m.
Proof.
  rewrite <- !(size_dom (D := gset nat)). now rewrite dom_alter_L.
Qed.

Section Invariant.
(** A property of the two tables that every run of the handler's [try]
    block keeps, under collaborators that satisfy [P]. *)
Context (P : env -> Prop) (I : world -> Prop).
Context (I_empty : I empty_world).
Context (I_tables : forall w w',
  parsing_logs w' = parsing_logs w ->
  size (shipment_orders w') = size (shipment_orders w) -> I w -> I w').
Context (I_extract : forall E b w,
  P E -> I w -> I (extract_shipment_data E b w).2).

Lemma submit_invariant E fileContent fileName fileUrl failTitle fallback w :
  P E -> I w ->
  I (try_catch
       (extractDataFromFile E fileContent fileName fileUrl ≫= report_result)
       (fun error =>
          record_call (Toast failTitle (Text (message_or error fallback))))
       w).2.
Proof.
  intros HE Hw. unfold try_catch. rewrite submit_outcome.
  set (w0 := evolve w _ _ _).
  assert (I w0) as Hw0 by (revert Hw; now apply I_tables).
  destruct (functions_invoke_error E _).
  { cbn. revert Hw0. now apply I_tables. }
  pose proof (I_extract E
                (mk_request_body fileContent fileName (or_null fileUrl)) w0
                HE Hw0) as Hx.
  destruct (extract_shipment_data E _ w0) as [[[o p]|e] w1]; cbn [snd] in Hx.
  - destruct (Get (as_json p) "customer_name"); cbn [snd];
      (revert Hx; now apply I_tables).
  - cbn. revert Hx. now apply I_tables.
Qed.

Lemma app_reachable_invariant w : app_reachable P w -> I w.
Proof.
  induction 1 as [|E req w HE Hreach IH|E file w HE Hreach IH
                  |E emailContent w HE Hreach IH
                  |update_error editing editForm w Hreach IH].
  - exact I_empty.
  - destruct (serve_world E req w) as [-> | [b ->]]; [exact IH|].
    now apply I_extract.
  - destruct (storage_upload_error E (upload_key E file)) as [m|] eqn:Herr.
    { unfold handleFileUpload.
      rewrite (try_catch_bind_throw _ _ _ w _ _
                 (uploadFile_rejected E file w m Herr)).
      cbn. revert IH. now apply I_tables. }
    destruct (text file) as [content|] eqn:Htext.
    2: { unfold handleFileUpload.
         rewrite (try_catch_bind_ok _ _ _ w _ _
                    (uploadFile_stored E file w Herr)).
         unfold readFileContent. rewrite Htext.
         unfold try_catch, mbind, M_bind, throw, record_call; cbn.
         revert IH. now apply I_tables. }
    rewrite (handleFileUpload_submits E file w content Herr Htext).
    set (w1 := mk_world _ _ _ _).
    apply (submit_invariant E content (name file)
             (Some (storage_public_url E (upload_key E file)))
             "Upload Failed" "Failed to process file" w1 HE).
    revert IH. now apply I_tables.
  - unfold handleEmailExtraction.
    destruct (String.eqb (String_trim E emailContent) "").
    + cbn. revert IH. now apply I_tables.
    + apply (submit_invariant E emailContent (email_file_name E) None
               "Processing Failed" "Failed to process email content" w HE IH).
  - destruct editing as [shipment|]; [|exact IH].
    destruct update_error as [m|].
    + rewrite handleSave_rejected. cbn [snd].
      revert IH. now apply I_tables.
    + rewrite handleSave_accepted. cbn [snd].
      revert IH. apply I_tables; [reflexivity|]. cbn.
      apply size_alter_orders.
Qed.
End Invariant.

Lemma empty_consistent : consistent empty_world.
Proof.
  split; [reflexivity|]. intros a l Hl. cbn in Hl.
  rewrite lookup_empty in Hl. discriminate.
Qed.

Lemma empty_sound : sound empty_world.
Proof.
  split; [reflexivity|]. intros a l Hl. cbn in Hl.
  rewrite lookup_empty in Hl. discriminate.
Qed.

Lemma succeeded_attempt_counts w a l :
  parsing_logs w !! a = Some l -> succeeded l ->
  0 < size (successes (parsing_logs w)).
Proof.
  intros Hl [Hs _].
  assert (successes (parsing_logs w) !! a = Some l) as Hin
    by (apply map_lookup_filter_Some; split; assumption).
  destruct (decide (size (successes (parsing_logs w)) = 0)) as [Hz|]; [|lia].
  apply map_size_empty_iff in Hz. rewrite Hz, lookup_empty in Hin.
  discriminate.
Qed.

Lemma nonempty_orders w :
  0 < size (shipment_orders w) -> exists i o, shipment_orders w !! i = Some o.
Proof.
  intros Hpos. apply map_choose. apply map_size_non_empty_iff. lia.
Qed.

(** X24: Whatever the application does (requests to the edge function, file
    uploads, pasted emails, saved edits, with any answers of the
    collaborators), every attempt that ended in [success] holds a
    validated payload, and there are at least as many shipment orders
    as such attempts: when one exists, a shipment order exists.  When
    the record store applies every update of [parsing_logs], there are
    as many of the one as of the other: a shipment order exists exactly
    when such an attempt exists. *)
Theorem app_orders_match_successes w :
  (app_reachable any_env w ->
   size (successes (parsing_logs w)) <= size (shipment_orders w) /\
   (forall a l, parsing_logs w !! a = Some l -> status l = success ->
                succeeded l) /\
   ((exists a l, parsing_logs w !! a = Some l /\ succeeded l) ->
    exists i o, shipment_orders w !! i = Some o)) /\
  (app_reachable applies_updates w ->
   size (shipment_orders w) = size (successes (parsing_logs w)) /\
   ((exists i o, shipment_orders w !! i = Some o) <->
    (exists a l, parsing_logs w !! a = Some l /\ succeeded l))).
Proof.
  split.
  - intros Hreach.
    destruct (app_reachable_invariant any_env sound empty_sound sound_tables
                (fun E b w _ => extract_sound E b w) w Hreach)
      as [Hsize Hval].
    split; [exact Hsize|]. split; [exact Hval|].
    intros (a & l & Hl & Hs). apply nonempty_orders.
    pose proof (succeeded_attempt_counts w a l Hl Hs). lia.
  - intros Hreach.
    destruct (app_reachable_invariant applies_updates consistent
                empty_consistent consistent_tables extract_consistent
                w Hreach) as [Hsize Hval].
    split; [exact Hsize|]. split.
    + intros (i & o & Ho).
      assert (successes (parsing_logs w) <> ∅) as Hne.
      { apply map_size_non_empty_iff. rewrite <- Hsize.
        apply map_size_non_empty_iff. intros Hempty.
        rewrite Hempty, lookup_empty in Ho. discriminate. }
      apply map_choose in Hne. destruct Hne as (a & l & Hl).
      apply map_lookup_filter_Some in Hl. destruct Hl as [Hl Hs].
      exists a, l. split; [exact Hl | exact (Hval a l Hl Hs)].
    + intros (a & l & Hl & Hs). apply nonempty_orders.
      pose proof (succeeded_attempt_counts w a l Hl Hs). lia.
Qed.

Lemma app_orders_match_successes_witness :
  size (shipment_orders
          (handleEmailExtraction
             (Scenario.answering 200 Scenario.text_A None None)
             "Ship to Jane Doe, 12 Oak St" empty_world).2)
  = size (successes (parsing_logs
          (handleEmailExtraction
             (Scenario.answering 200 Scenario.text_A None None)
             "Ship to Jane Doe, 12 Oak St" empty_world).2)).
Proof.
  refine (proj1 (proj2 (app_orders_match_successes _) _)).
  apply app_email; [intros id u; reflexivity | apply app_empty].
Defined.
